(** * A shallow embedding of [src/app.component.ts]

    The component is a thin, event-driven layer over a rasterizer (pdf.js)
    and a mutation library (pdf-lib).  Component fields become a record,
    the two JavaScript [Map]s of the edit overlay and the [ArrayBuffer] of
    the selected file live in stores of objects addressed by reference,
    every call into an external library
    takes its outcome from an explicit environment, and every observable
    interaction (notices, library calls, the download) is logged as an
    event. *)

From Stdlib Require Import ZArith Bool List String Floats.PrimFloat.
From stdpp Require Import base tactics option list.
Import ListNotations.

Local Open Scope string_scope.
Local Open Scope list_scope.
Local Open Scope Z_scope.

(** ** JavaScript values

    A JavaScript [number] is an IEEE 754 binary64 value: the kernel's
    primitive [float].  Page numbers are integer-valued numbers the code
    does arithmetic on ([pageNum - 1], [pageNum < 1]) and are kept in [Z];
    fragment indices are array positions in extraction order and are kept
    in [nat]. *)

Module Js.

(** A call returns (a promise resolves) or throws (the promise rejects). *)
Inductive result (A : Type) : Type :=
| Ret (a : A)
| Exn.
Arguments Ret {A} a.
Arguments Exn {A}.

(** [ToNumber] on a value that may be [undefined]. *)
Definition toNumber (v : option float) : float :=
  match v with
  | Some x => x
  | None => PrimFloat.nan
  end.

(** [Math.min(x, y)]: NaN if either argument is NaN, and -0 is below +0. *)
Definition Math_min (x y : float) : float :=
  if (PrimFloat.is_nan x || PrimFloat.is_nan y)%bool then PrimFloat.nan
  else if (x <? y)%float then x
  else if (y <? x)%float then y
  else if (PrimFloat.is_zero x && PrimFloat.get_sign x)%bool then x
  else y.

(** [Math.max(x, y)]: NaN if either argument is NaN, and +0 is above -0. *)
Definition Math_max (x y : float) : float :=
  if (PrimFloat.is_nan x || PrimFloat.is_nan y)%bool then PrimFloat.nan
  else if (y <? x)%float then x
  else if (x <? y)%float then y
  else if (PrimFloat.is_zero x && negb (PrimFloat.get_sign x))%bool then x
  else y.

(** [arr[i]]: [undefined] out of range. *)
Definition index {A : Type} (arr : list A) (i : nat) : option A := arr !! i.

End Js.

Import Js.

(** ** JavaScript [Map]

    Entries are kept in insertion order, which is the order [entries()]
    iterates in; [set] on a present key replaces the value where it
    stands, [set] on an absent key appends. *)

Module JsMap.

Abbreviation t K V := (list (K * V)) (only parsing).

Section Ops.
Context {K V : Type} `{EqDecision K}.

Definition empty : t K V := [].

Fixpoint get (k : K) (m : t K V) : option V :=
  match m with
  | [] => None
  | (k', v) :: m' => if decide (k = k') then Some v else get k m'
  end.

Fixpoint set (k : K) (v : V) (m : t K V) : t K V :=
  match m with
  | [] => [(k, v)]
  | (k', v') :: m' =>
      if decide (k = k') then (k, v) :: m' else (k', v') :: set k v m'
  end.

Definition size (m : t K V) : nat := length m.

Definition entries (m : t K V) : list (K * V) := m.

(** [new Map(m)]: a new object filled by iterating [m]. *)
Definition copy (m : t K V) : t K V :=
  fold_left (fun acc kv => set (fst kv) (snd kv) acc) (entries m) empty.

(** Keys are pairwise distinct: every [Map] built by [set] is such. *)
Definition keys_unique (m : t K V) : Prop := List.NoDup (map fst m).

End Ops.

End JsMap.

(** ** Data model (lines 7-38) *)

(** The bytes of a file, of a typed array or of a saved document. *)
Definition Bytes : Type := list Byte.byte.

(** What an [ArrayBuffer] object holds: its bytes, until the buffer is
    transferred to a worker.  A detached buffer has no bytes, and making a
    typed array on it throws. *)
Inductive ArrayBuffer : Type :=
| Attached (data : Bytes)
| Detached.

Module TextItem.
Record t : Type := mk {
  str : string;
  dir : string;
  width : float;
  height : float;
  transform : list float;
  fontName : string;
}.
End TextItem.

(** *** The rasterizer (pdf.js), as far as the component uses it *)

Module Viewport.
Record t : Type := mk { width : float; height : float }.
End Viewport.

Module PdfPage.
Record t : Type := mk {
  getViewport : float -> Viewport.t;            (* page.getViewport({ scale }) *)
  render : result unit;                         (* page.render(ctx).promise *)
  getTextContent : result (list TextItem.t);    (* (await page.getTextContent()).items *)
}.
End PdfPage.

Module PdfDocProxy.
Record t : Type := mk {
  numPages : Z;
  getPage : Z -> result PdfPage.t;
}.
End PdfDocProxy.

(** *** The mutation library (pdf-lib), as far as the component uses it *)

Inductive Color : Type := rgb (r g b : float).

Module RectOptions.
Record t : Type := mk {
  x : option float;
  y : float;
  width : float;
  height : float;
  color : Color;
}.
End RectOptions.

Inductive Font : Type := Helvetica.

Module TextOptions.
Record t : Type := mk {
  x : option float;
  y : float;
  font : Font;
  size : float;
  color : Color;
}.
End TextOptions.

Module PageSize.
Record t : Type := mk { width : float; height : float }.
End PageSize.

Module PDFDocument.
Record t : Type := mk {
  embedFont : Font -> result unit;
  getPages : list PageSize.t;                   (* each page answers getSize() *)
  drawRectangle : Z -> RectOptions.t -> result unit;
  drawText : Z -> string -> TextOptions.t -> result unit;
  save : result Bytes;
}.
End PDFDocument.

Module PDFLib.
Record t : Type := mk { load : ArrayBuffer -> result PDFDocument.t }.
End PDFLib.

(** *** The browser *)

(** A canvas coerces an assigned dimension to an unsigned long; the value
    read back afterwards is [coerce v]. *)
Module Canvas.
Record t : Type := mk { coerce : float -> float }.
End Canvas.

Module File.
Record t : Type := mk {
  type : string;
  arrayBuffer : result Bytes;                   (* the bytes of the new ArrayBuffer *)
}.
End File.

(** What the world answers while one user action runs.  [getDocument] is
    handed a typed array on the very buffer the component keeps: the
    rasterizer owns that buffer from then on, and may transfer it to its
    worker, which detaches it. *)
Module Env.
Record t : Type := mk {
  canvasRef : option Canvas.t;                  (* @ViewChild('pdfCanvas') *)
  loadPdfLibraries : result unit;               (* lines 63-80 *)
  getDocument : Bytes -> result PdfDocProxy.t;  (* pdfjsLib.getDocument({data}).promise *)
  getDocument_leaves : Bytes -> ArrayBuffer;    (* the buffer under [data], once that promise has settled *)
  PDFLib : option PDFLib.t;                     (* typeof PDFLib !== 'undefined' *)
}.
End Env.

(** Everything the component does that can be observed from outside. *)
Inductive Event : Type :=
| Alert (msg : string)
| ConsoleError (msg : string)
| LoadLibraries
| ReadFile
| ResetFileInput
| PdfJs_getDocument (data : Bytes)
| PdfJs_getPage (pageNum : Z)
| PdfJs_getViewport (scale : float)
| PdfJs_render
| PdfJs_getTextContent
| PdfLib_load (data : ArrayBuffer)
| PdfLib_embedFont (f : Font)
| PdfLib_getPages
| PdfLib_getSize (pageIndex : Z)
| PdfLib_drawRectangle (pageIndex : Z) (opts : RectOptions.t)
| PdfLib_drawText (pageIndex : Z) (text : string) (opts : TextOptions.t)
| PdfLib_save
| Download (bytes : Bytes) (filename : string).

Definition is_rasterizer_call (e : Event) : bool :=
  match e with
  | PdfJs_getDocument _ | PdfJs_getPage _ | PdfJs_getViewport _
  | PdfJs_render | PdfJs_getTextContent => true
  | _ => false
  end.

Definition is_mutation_call (e : Event) : bool :=
  match e with
  | PdfLib_load _ | PdfLib_embedFont _ | PdfLib_getPages | PdfLib_getSize _
  | PdfLib_drawRectangle _ _ | PdfLib_drawText _ _ _ | PdfLib_save => true
  | _ => false
  end.

Definition is_library_call (e : Event) : bool :=
  match e with
  | LoadLibraries => true
  | _ => (is_rasterizer_call e || is_mutation_call e)%bool
  end.

Definition is_download (e : Event) : bool :=
  match e with
  | Download _ _ => true
  | _ => false
  end.

(** ** The store of [Map] objects

    [updateText] mutates the maps it is handed and then copies the outer
    one, so maps are objects with identity: a reference is the position at
    which the object was allocated, and objects are never freed. *)

Definition ref : Type := nat.

Abbreviation PageEdits := (JsMap.t nat string) (only parsing).
Abbreviation Overlay := (JsMap.t Z ref) (only parsing).

Module Heap.

Record t : Type := mk {
  pageMaps : list PageEdits;     (* the Map<number, string> objects *)
  overlays : list Overlay;       (* the Map<number, Map<number, string>> objects *)
}.

Definition derefPage (h : t) (r : ref) : PageEdits :=
  default JsMap.empty (pageMaps h !! r).

Definition derefOverlay (h : t) (r : ref) : Overlay :=
  default JsMap.empty (overlays h !! r).

Definition allocPage (h : t) (m : PageEdits) : ref * t :=
  (length (pageMaps h), mk (pageMaps h ++ [m]) (overlays h)).

Definition allocOverlay (h : t) (m : Overlay) : ref * t :=
  (length (overlays h), mk (pageMaps h) (overlays h ++ [m])).

Definition writePage (h : t) (r : ref) (m : PageEdits) : t :=
  mk (<[r := m]> (pageMaps h)) (overlays h).

Definition writeOverlay (h : t) (r : ref) (m : Overlay) : t :=
  mk (pageMaps h) (<[r := m]> (overlays h)).

(** References held by live objects point at live objects. *)
Definition liveOverlay (h : t) (r : ref) : Prop := (r < length (overlays h))%nat.
Definition livePage (h : t) (r : ref) : Prop := (r < length (pageMaps h))%nat.

Definition closed (h : t) : Prop :=
  forall (o : ref) (m : Overlay),
    overlays h !! o = Some m ->
    JsMap.keys_unique m /\ forall (p : Z) (r : ref), In (p, r) m -> livePage h r.

(** The two-level mapping held by the overlay object [o], read as a
    partial function. *)
Definition lookup (h : t) (o : ref) (p : Z) (i : nat) : option string :=
  match JsMap.get p (derefOverlay h o) with
  | Some r => JsMap.get i (derefPage h r)
  | None => None
  end.

End Heap.

(** ** Component state (lines 25-38) *)

(** The [pdfFileBuffer] signal holds a reference to an [ArrayBuffer]
    object; [buffers] is the store of these objects, addressed by position
    like the maps. *)
Record AppState : Type := mkAppState {
  isLoading : bool;
  pdfFileBuffer : option ref;
  pdfDocProxy : option PdfDocProxy.t;
  currentPage : Z;
  totalPages : Z;
  zoom : float;
  canvasWidth : float;
  canvasHeight : float;
  textItems : list TextItem.t;
  editedTexts : ref;
  heap : Heap.t;
  buffers : list ArrayBuffer;
}.

Definition set_isLoading (v : bool) (st : AppState) : AppState :=
  mkAppState v (pdfFileBuffer st) (pdfDocProxy st) (currentPage st)
    (totalPages st) (zoom st) (canvasWidth st) (canvasHeight st)
    (textItems st) (editedTexts st) (heap st) (buffers st).

Definition set_pdfFileBuffer (v : option ref) (st : AppState) : AppState :=
  mkAppState (isLoading st) v (pdfDocProxy st) (currentPage st)
    (totalPages st) (zoom st) (canvasWidth st) (canvasHeight st)
    (textItems st) (editedTexts st) (heap st) (buffers st).

Definition set_pdfDocProxy (v : option PdfDocProxy.t) (st : AppState) : AppState :=
  mkAppState (isLoading st) (pdfFileBuffer st) v (currentPage st)
    (totalPages st) (zoom st) (canvasWidth st) (canvasHeight st)
    (textItems st) (editedTexts st) (heap st) (buffers st).

Definition set_currentPage (v : Z) (st : AppState) : AppState :=
  mkAppState (isLoading st) (pdfFileBuffer st) (pdfDocProxy st) v
    (totalPages st) (zoom st) (canvasWidth st) (canvasHeight st)
    (textItems st) (editedTexts st) (heap st) (buffers st).

Definition set_totalPages (v : Z) (st : AppState) : AppState :=
  mkAppState (isLoading st) (pdfFileBuffer st) (pdfDocProxy st) (currentPage st)
    v (zoom st) (canvasWidth st) (canvasHeight st)
    (textItems st) (editedTexts st) (heap st) (buffers st).

Definition set_zoom (v : float) (st : AppState) : AppState :=
  mkAppState (isLoading st) (pdfFileBuffer st) (pdfDocProxy st) (currentPage st)
    (totalPages st) v (canvasWidth st) (canvasHeight st)
    (textItems st) (editedTexts st) (heap st) (buffers st).

Definition set_canvasSize (w h : float) (st : AppState) : AppState :=
  mkAppState (isLoading st) (pdfFileBuffer st) (pdfDocProxy st) (currentPage st)
    (totalPages st) (zoom st) w h
    (textItems st) (editedTexts st) (heap st) (buffers st).

Definition set_textItems (v : list TextItem.t) (st : AppState) : AppState :=
  mkAppState (isLoading st) (pdfFileBuffer st) (pdfDocProxy st) (currentPage st)
    (totalPages st) (zoom st) (canvasWidth st) (canvasHeight st)
    v (editedTexts st) (heap st) (buffers st).

Definition set_overlay (r : ref) (h : Heap.t) (st : AppState) : AppState :=
  mkAppState (isLoading st) (pdfFileBuffer st) (pdfDocProxy st) (currentPage st)
    (totalPages st) (zoom st) (canvasWidth st) (canvasHeight st)
    (textItems st) r h (buffers st).

Definition set_buffers (v : list ArrayBuffer) (st : AppState) : AppState :=
  mkAppState (isLoading st) (pdfFileBuffer st) (pdfDocProxy st) (currentPage st)
    (totalPages st) (zoom st) (canvasWidth st) (canvasHeight st)
    (textItems st) (editedTexts st) (heap st) v.

(** The buffer object behind a reference. *)
Definition derefBuffer (st : AppState) (b : ref) : ArrayBuffer :=
  default Detached (buffers st !! b).

(** The overlay the [editedTexts] signal currently holds. *)
Definition overlayOf (st : AppState) : Overlay :=
  Heap.derefOverlay (heap st) (editedTexts st).

(** The two-level mapping read as a partial function. *)
Definition overlayLookup (st : AppState) (p : Z) (i : nat) : option string :=
  Heap.lookup (heap st) (editedTexts st) p i.

Definition zoom_initial : float := 1.25%float.
Definition zoom_step : float := 0.25%float.
Definition zoom_max : float := 3%float.
Definition zoom_min : float := 0.5%float.

(** The field initialisers: one empty overlay object, nothing loaded. *)
Definition initialState : AppState :=
  {| isLoading := false;
     pdfFileBuffer := None;
     pdfDocProxy := None;
     currentPage := 1;
     totalPages := 0;
     zoom := zoom_initial;
     canvasWidth := 0%float;
     canvasHeight := 0%float;
     textItems := [];
     editedTexts := 0%nat;
     heap := Heap.mk [] [JsMap.empty];
     buffers := [] |}.

(** The state's reference is live and the store is closed: this holds
    initially and every action keeps it. *)
Definition wf (st : AppState) : Prop :=
  Heap.liveOverlay (heap st) (editedTexts st) /\ Heap.closed (heap st).

(** ** Effects: a log of events and a possible exception *)

Definition Eff (A : Type) : Type := list Event * result A.

Definition ret {A : Type} (a : A) : Eff A := ([], Ret a).

Definition throw {A : Type} : Eff A := ([], Exn).

Definition bind {A B : Type} (m : Eff A) (k : A -> Eff B) : Eff B :=
  match m with
  | (t, Ret a) => let (t', r) := k a in (t ++ t', r)
  | (t, Exn) => (t, Exn)
  end.

(** A call into the outside world: the event is logged, the outcome is
    what the world answered. *)
Definition call {A : Type} (e : Event) (r : result A) : Eff A := ([e], r).

Definition emit (e : Event) : Eff unit := ([e], Ret tt).

Declare Scope eff_scope.
Delimit Scope eff_scope with eff.
Notation "'do' x <- m ; k" := (bind m (fun x => k))
  (at level 10, x name, m at level 100, k at level 200) : eff_scope.
Notation "'seq' m ; k" := (bind m (fun _ => k))
  (at level 10, m at level 100, k at level 200) : eff_scope.

Local Open Scope eff_scope.

(** ** Page Renderer (lines 135-175) *)

(** The [try] block of [renderPage]: the state it leaves and what it logged. *)
Definition renderBody (canvas : Canvas.t) (proxy : PdfDocProxy.t)
    (pageNum : Z) (st : AppState) : AppState * Eff unit :=
  match PdfDocProxy.getPage proxy pageNum with
  | Exn => (st, ([PdfJs_getPage pageNum], Exn))
  | Ret page =>
      let viewport := PdfPage.getViewport page (zoom st) in
      let st1 :=
        set_canvasSize (Canvas.coerce canvas (Viewport.width viewport))
                       (Canvas.coerce canvas (Viewport.height viewport)) st in
      let t := [PdfJs_getPage pageNum; PdfJs_getViewport (zoom st); PdfJs_render] in
      match PdfPage.render page with
      | Exn => (st1, (t, Exn))
      | Ret _ =>
          match PdfPage.getTextContent page with
          | Exn => (st1, (t ++ [PdfJs_getTextContent], Exn))
          | Ret items =>
              (set_textItems items st1, (t ++ [PdfJs_getTextContent], Ret tt))
          end
      end
  end.

Definition renderPage (env : Env.t) (pageNum : Z) (st : AppState)
    : AppState * list Event :=
  match pdfDocProxy st with
  | None => (st, [])
  | Some proxy =>
      if ((pageNum <? 1) || (totalPages st <? pageNum))%bool then (st, [])
      else
        match Env.canvasRef env with
        | None => (st, [ConsoleError "Render called before canvas was ready."])
        | Some canvas =>
            let st1 := set_currentPage pageNum (set_isLoading true st) in
            let '(st2, (t, r)) := renderBody canvas proxy pageNum st1 in
            let caught :=
              match r with
              | Ret _ => []
              | Exn => [ConsoleError "Failed to render page";
                        Alert "An error occurred while rendering the page."]
              end in
            (set_isLoading false st2, t ++ caught)
        end
  end.

(** ** Document Loader (lines 82-133) *)

(** [fileBuffer] is a reference.  Line 124 makes a typed array on the
    buffer, which throws when the buffer is detached, and hands it to the
    rasterizer; by the time the promise of line 125 settles, the buffer
    holds what the rasterizer left of it, for every holder of the
    reference. *)
Definition loadPdf (env : Env.t) (fileBuffer : ref) (st : AppState)
    : AppState * Eff unit :=
  match derefBuffer st fileBuffer with
  | Detached => (st, ([], Exn))
  | Attached data =>
      let st0 :=
        set_buffers (<[fileBuffer := Env.getDocument_leaves env data]> (buffers st))
                    st in
      match Env.getDocument env data with
      | Exn => (st0, ([PdfJs_getDocument data], Exn))
      | Ret pdf =>
          let st1 := set_pdfDocProxy (Some pdf) st0 in
          let st2 := set_totalPages (PdfDocProxy.numPages pdf) st1 in
          let st3 := set_currentPage 1 st2 in
          let '(fresh, h) := Heap.allocOverlay (heap st3) JsMap.empty in
          let st4 := set_overlay fresh h st3 in
          let '(st5, t) := renderPage env 1 st4 in
          (st5, (PdfJs_getDocument data :: t, Ret tt))
      end
  end.

Definition pdfMime : string := "application/pdf".

(** [input.files] is [null] or a list of files.  The deferred callback of
    line 104 runs after the [finally] of line 118.  [file.arrayBuffer()]
    makes a new buffer object; the signal and [loadPdf] are handed the
    same reference to it. *)
Definition onFileSelected (files : option (list File.t)) (env : Env.t)
    (st : AppState) : AppState * list Event :=
  match files with
  | None => (st, [])
  | Some [] => (st, [])
  | Some (file :: _) =>
      if negb (String.eqb (File.type file) pdfMime) then
        (st, [Alert "Please select a PDF file."])
      else
        let st1 := set_isLoading true st in
        let librariesFailed :=
          [ConsoleError "Error during file processing:";
           Alert "Failed to load required PDF libraries. Please check your internet connection and try again.";
           ResetFileInput] in
        match Env.loadPdfLibraries env with
        | Exn => (set_isLoading false st1, LoadLibraries :: librariesFailed)
        | Ret _ =>
            match File.arrayBuffer file with
            | Exn =>
                (set_isLoading false st1,
                 LoadLibraries :: ReadFile :: librariesFailed)
            | Ret data =>
                let fileBuffer := length (buffers st1) in
                let st2 :=
                  set_pdfFileBuffer (Some fileBuffer)
                    (set_buffers (buffers st1 ++ [Attached data]) st1) in
                let '(st3, (t, r)) := loadPdf env fileBuffer st2 in
                let t0 := [LoadLibraries; ReadFile; ResetFileInput] ++ t in
                match r with
                | Ret _ => (st3, t0)
                | Exn =>
                    (set_isLoading false (set_pdfFileBuffer None st3),
                     t0 ++ [ConsoleError "Error loading PDF:";
                            Alert "Failed to load PDF file."])
                end
            end
        end
  end.

(** ** Edit Tracker (lines 177-185, 290-292) *)

(** [newText] is the [innerText] of the event's target. *)
Definition updateText (itemIndex : nat) (newText : string) (st : AppState)
    : AppState :=
  let currentMap := editedTexts st in
  let h := heap st in
  let '(pageEdits, h1) :=
    match JsMap.get (currentPage st) (Heap.derefOverlay h currentMap) with
    | Some r => (r, h)
    | None => Heap.allocPage h JsMap.empty
    end in
  let h2 :=
    Heap.writePage h1 pageEdits
      (JsMap.set itemIndex newText (Heap.derefPage h1 pageEdits)) in
  let h3 :=
    Heap.writeOverlay h2 currentMap
      (JsMap.set (currentPage st) pageEdits (Heap.derefOverlay h2 currentMap)) in
  let '(fresh, h4) :=
    Heap.allocOverlay h3 (JsMap.copy (Heap.derefOverlay h3 currentMap)) in
  set_overlay fresh h4 st.

Definition getEditedText (itemIndex : nat) (st : AppState) : result string :=
  match overlayLookup st (currentPage st) itemIndex with
  | Some s => Ret s
  | None =>
      match Js.index (textItems st) itemIndex with
      | Some item => Ret (TextItem.str item)
      | None => Exn
      end
  end.

(** ** Navigation and zoom (lines 187-207) *)

Definition goToPrevPage (env : Env.t) (st : AppState) : AppState * list Event :=
  if 1 <? currentPage st then renderPage env (currentPage st - 1) st
  else (st, []).

Definition goToNextPage (env : Env.t) (st : AppState) : AppState * list Event :=
  if currentPage st <? totalPages st then renderPage env (currentPage st + 1) st
  else (st, []).

(** [z => Math.min(z + 0.25, 3)] *)
Definition zoomIn_update (z : float) : float :=
  Math_min (z + zoom_step)%float zoom_max.

(** [z => Math.max(z - 0.25, 0.5)] *)
Definition zoomOut_update (z : float) : float :=
  Math_max (z - zoom_step)%float zoom_min.

Definition zoomIn (env : Env.t) (st : AppState) : AppState * list Event :=
  let st1 := set_zoom (zoomIn_update (zoom st)) st in
  renderPage env (currentPage st1) st1.

Definition zoomOut (env : Env.t) (st : AppState) : AppState * list Event :=
  let st1 := set_zoom (zoomOut_update (zoom st)) st in
  renderPage env (currentPage st1) st1.

(** ** Export Pipeline (lines 209-287) *)

Definition white : Color := rgb 1 1 1.
Definition black : Color := rgb 0 0 0.

(** The JavaScript literal [0.9], i.e. the binary64 value nearest to 9/10. *)
Definition textScale : float := 0x1.ccccccccccccdp-1%float.

(** Lines 243-267: one edit that was not skipped.  [item] is
    [textContent.items[itemIndex]]; were it [undefined], reading
    [item.transform] would throw. *)
Definition drawEdit (pdfDoc : PDFDocument.t) (pdfJsPage : PdfPage.t)
    (pageIndex : Z) (item : option TextItem.t) (newText : string) : Eff unit :=
  do viewport <- call (PdfJs_getViewport 1) (Ret (PdfPage.getViewport pdfJsPage 1));
  do item <- match item with Some it => ret it | None => throw end;
  let tx := TextItem.transform item in
  let textWidth := TextItem.width item in
  let textHeight := TextItem.height item in
  let x := Js.index tx 4 in
  let y := (Viewport.height viewport - toNumber (Js.index tx 5))%float in
  let rect := RectOptions.mk x y textWidth textHeight white in
  let text := TextOptions.mk x y Helvetica (textHeight * textScale) black in
  seq call (PdfLib_drawRectangle pageIndex rect)
           (PDFDocument.drawRectangle pdfDoc pageIndex rect);
  call (PdfLib_drawText pageIndex newText text)
       (PDFDocument.drawText pdfDoc pageIndex newText text).

(** Lines 240-268: the loop over one page's edits. *)
Fixpoint exportEdits (pdfDoc : PDFDocument.t) (pdfJsPage : PdfPage.t)
    (pageIndex : Z) (items : list TextItem.t) (edits : list (nat * string))
    : Eff unit :=
  match edits with
  | [] => ret tt
  | (itemIndex, newText) :: rest =>
      if (length items <=? itemIndex)%nat then
        exportEdits pdfDoc pdfJsPage pageIndex items rest
      else
        seq drawEdit pdfDoc pdfJsPage pageIndex (Js.index items itemIndex) newText;
        exportEdits pdfDoc pdfJsPage pageIndex items rest
  end.

(** [this.pdfDocProxy().getPage(pageNum)] *)
Definition proxyGetPage (proxy : option PdfDocProxy.t) (pageNum : Z)
    : Eff PdfPage.t :=
  match proxy with
  | None => throw
  | Some p => call (PdfJs_getPage pageNum) (PdfDocProxy.getPage p pageNum)
  end.

(** [pages[pageIndex].getSize()] *)
Definition pageGetSize (pages : list PageSize.t) (pageIndex : Z)
    : Eff PageSize.t :=
  match Js.index pages (Z.to_nat pageIndex) with
  | None => throw
  | Some size => call (PdfLib_getSize pageIndex) (Ret size)
  end.

(** Line 232. *)
Definition pageSkipped (pages : list PageSize.t) (pageNum : Z) : bool :=
  ((pageNum - 1 <? 0) || (Z.of_nat (length pages) <=? pageNum - 1))%bool.

(** Lines 230-269: the loop over the overlay's pages. *)
Fixpoint exportPages (proxy : option PdfDocProxy.t) (h : Heap.t)
    (pdfDoc : PDFDocument.t) (pages : list PageSize.t)
    (entries : list (Z * ref)) : Eff unit :=
  match entries with
  | [] => ret tt
  | (pageNum, edits) :: rest =>
      let pageIndex := pageNum - 1 in
      if pageSkipped pages pageNum then
        exportPages proxy h pdfDoc pages rest
      else
        seq pageGetSize pages pageIndex;
        do pdfJsPage <- proxyGetPage proxy pageNum;
        do items <- call PdfJs_getTextContent (PdfPage.getTextContent pdfJsPage);
        seq exportEdits pdfDoc pdfJsPage pageIndex items
              (JsMap.entries (Heap.derefPage h edits));
        exportPages proxy h pdfDoc pages rest
  end.

Definition exportName : string := "edited_document.pdf".

(** Lines 224-279: the [try] block.  [originalFileBuffer] is what the
    buffer holds when the mutation library is handed it. *)
Definition exportBody (lib : PDFLib.t) (originalFileBuffer : ArrayBuffer)
    (st : AppState) : Eff unit :=
  do pdfDoc <- call (PdfLib_load originalFileBuffer)
                    (PDFLib.load lib originalFileBuffer);
  seq call (PdfLib_embedFont Helvetica) (PDFDocument.embedFont pdfDoc Helvetica);
  do pages <- call PdfLib_getPages (Ret (PDFDocument.getPages pdfDoc));
  seq exportPages (pdfDocProxy st) (heap st) pdfDoc pages
        (JsMap.entries (overlayOf st));
  do pdfBytes <- call PdfLib_save (PDFDocument.save pdfDoc);
  emit (Download pdfBytes exportName).

Definition noPdfNotice : string := "No PDF loaded or PDF library not available.".
Definition noChangesNotice : string := "No changes have been made.".
Definition saveFailedNotice : string := "An error occurred while saving the PDF.".

Definition downloadPdf (env : Env.t) (st : AppState) : AppState * list Event :=
  match pdfFileBuffer st, Env.PDFLib env with
  | Some originalFileBuffer, Some lib =>
      if (JsMap.size (overlayOf st) =? 0)%nat then (st, [Alert noChangesNotice])
      else
        let st1 := set_isLoading true st in
        let '(t, r) :=
          exportBody lib (derefBuffer st originalFileBuffer) st1 in
        let caught :=
          match r with
          | Ret _ => []
          | Exn => [ConsoleError "Error saving PDF:"; Alert saveFailedNotice]
          end in
        (set_isLoading false st1, t ++ caught)
  | _, _ => (st, [Alert noPdfNotice])
  end.

(** ** User actions and sessions *)

Inductive Action : Type :=
| OnFileSelected (files : option (list File.t))
| RenderPage (pageNum : Z)
| UpdateText (itemIndex : nat) (newText : string)
| GoToPrevPage
| GoToNextPage
| ZoomIn
| ZoomOut
| DownloadPdf.

Definition step (env : Env.t) (a : Action) (st : AppState)
    : AppState * list Event :=
  match a with
  | OnFileSelected files => onFileSelected files env st
  | RenderPage pageNum => renderPage env pageNum st
  | UpdateText itemIndex newText => (updateText itemIndex newText st, [])
  | GoToPrevPage => goToPrevPage env st
  | GoToNextPage => goToNextPage env st
  | ZoomIn => zoomIn env st
  | ZoomOut => zoomOut env st
  | DownloadPdf => downloadPdf env st
  end.

(** A session: user actions one after the other, each with the answers
    the world gave while it ran. *)
Fixpoint session (script : list (Env.t * Action)) (st : AppState) : AppState :=
  match script with
  | [] => st
  | (env, a) :: rest => session rest (fst (step env a st))
  end.

(** The states a session passes through, one per action. *)
Fixpoint sessionStates (script : list (Env.t * Action)) (st : AppState)
    : list AppState :=
  match script with
  | [] => []
  | (env, a) :: rest =>
      let st' := fst (step env a st) in st' :: sessionStates rest st'
  end.

(** Actions that only move around the document. *)
Definition isNavigation (a : Action) : bool :=
  match a with
  | RenderPage _ | GoToPrevPage | GoToNextPage | ZoomIn | ZoomOut => true
  | _ => false
  end.

Definition isZoomStep (a : Action) : bool :=
  match a with
  | ZoomIn | ZoomOut => true
  | _ => false
  end.

(** Zoom factors reachable from the initial one. *)
Definition zoomGrid : list float :=
  [0.5; 0.75; 1; 1.25; 1.5; 1.75; 2; 2.25; 2.5; 2.75; 3]%float.

Definition zoomInRange (z : float) : Prop :=
  (zoom_min <=? z)%float = true /\ (z <=? zoom_max)%float = true.

(** What one zoom action does to the factor: the fixed increment, unless
    the factor already sits at the bound it moves towards. *)
Definition zoomStepped (a : Action) (z z' : float) : Prop :=
  match a with
  | ZoomIn => z' = if (z <? zoom_max)%float then (z + zoom_step)%float else z
  | ZoomOut => z' = if (zoom_min <? z)%float then (z - zoom_step)%float else z
  | _ => z' = z
  end.

(** [P] holds of every step of a session: state before, action, state after. *)
Fixpoint everyStep (P : AppState -> Action -> AppState -> Prop)
    (script : list (Env.t * Action)) (st : AppState) : Prop :=
  match script with
  | [] => True
  | (env, a) :: rest =>
      let st' := fst (step env a st) in P st a st' /\ everyStep P rest st'
  end.

(** An environment in which nothing is available. *)
Definition bareEnv : Env.t :=
  Env.mk None (Ret tt) (fun _ => Exn) Attached None.

(** ** What the claims speak of *)

(** A recorded edit: page [pageNum] has an entry in the overlay, and its
    sub-mapping has [newText] at [itemIndex]. *)
Definition recorded (st : AppState) (pageNum : Z) (itemIndex : nat)
    (newText : string) : Prop :=
  exists r : ref,
    In (pageNum, r) (overlayOf st) /\
    In (itemIndex, newText) (Heap.derefPage (heap st) r).

(** The fragment an edit refers to at export time: fragment [itemIndex]
    of the text content re-extracted from page [pageNum]. *)
Definition reextracted (st : AppState) (pageNum : Z) (itemIndex : nat)
    (page : PdfPage.t) (item : TextItem.t) : Prop :=
  exists (proxy : PdfDocProxy.t) (items : list TextItem.t),
    pdfDocProxy st = Some proxy /\
    PdfDocProxy.getPage proxy pageNum = Ret page /\
    PdfPage.getTextContent page = Ret items /\
    Js.index items itemIndex = Some item.

(** Drawn at [x = transform[4]], [y = pageHeight - transform[5]], the page
    height being that of the viewport at scale 1. *)
Definition drawnAt (page : PdfPage.t) (item : TextItem.t)
    (x : option float) (y : float) : Prop :=
  x = Js.index (TextItem.transform item) 4 /\
  y = (Viewport.height (PdfPage.getViewport page 1)
       - toNumber (Js.index (TextItem.transform item) 5))%float.

(** Page [pageNum] has a place in the output document's page list. *)
Definition pageInRange (pages : list PageSize.t) (pageNum : Z) : bool :=
  ((0 <=? pageNum - 1) && (pageNum - 1 <? Z.of_nat (length pages)))%bool.

(** Fragment [itemIndex] has a place in the extracted fragment list. *)
Definition itemInRange (items : list TextItem.t) (itemIndex : nat) : bool :=
  (itemIndex <? length items)%nat.

Definition isDrawCall (e : Event) : bool :=
  match e with
  | PdfLib_drawRectangle _ _ | PdfLib_drawText _ _ _ => true
  | _ => false
  end.

(** [e] is the cover, or the replacement text [s], drawn on output page
    [pageIndex] at the place of fragment [item] of [page]. *)
Definition drawsEdit (e : Event) (pageIndex : Z) (s : string)
    (page : PdfPage.t) (item : TextItem.t) : Prop :=
  (exists rect, e = PdfLib_drawRectangle pageIndex rect /\
     drawnAt page item (RectOptions.x rect) (RectOptions.y rect)) \/
  (exists text, e = PdfLib_drawText pageIndex s text /\
     drawnAt page item (TextOptions.x text) (TextOptions.y text)).

(** The log holds the cover and then the replacement text [s], one after
    the other, on output page [pageIndex], both at the place of [item]. *)
Definition coveredThenDrawn (log : list Event) (pageIndex : Z) (s : string)
    (page : PdfPage.t) (item : TextItem.t) : Prop :=
  exists rect text t1 t2,
    log = t1 ++ [PdfLib_drawRectangle pageIndex rect;
                 PdfLib_drawText pageIndex s text] ++ t2 /\
    drawnAt page item (RectOptions.x rect) (RectOptions.y rect) /\
    drawnAt page item (TextOptions.x text) (TextOptions.y text).

(** Every call the export makes into either library succeeds. *)
Definition librariesCooperate (pdfDoc : PDFDocument.t) (proxy : PdfDocProxy.t)
    : Prop :=
  PDFDocument.embedFont pdfDoc Helvetica = Ret tt /\
  (forall pageIndex opts, PDFDocument.drawRectangle pdfDoc pageIndex opts = Ret tt) /\
  (forall pageIndex text opts, PDFDocument.drawText pdfDoc pageIndex text opts = Ret tt) /\
  (exists bytes, PDFDocument.save pdfDoc = Ret bytes) /\
  (forall pageNum,
     pageInRange (PDFDocument.getPages pdfDoc) pageNum = true ->
     exists page items,
       PdfDocProxy.getPage proxy pageNum = Ret page /\
       PdfPage.getTextContent page = Ret items).

Definition isNotice (e : Event) : bool :=
  match e with
  | Alert _ | ConsoleError _ => true
  | _ => false
  end.

(** ** Worked examples

    Documents whose pages are 612 by 792 at scale 1, given by the
    fragments of each page; [exItem] sits at transform [[1,0,0,1,50,700]]
    and is 40 wide and 12 high.  In [exEnv] the rasterizer leaves the
    buffer it is handed as it is, and the mutation library loads whatever
    it is given. *)

Definition exItem : TextItem.t :=
  TextItem.mk "Hello" "ltr" 40 12 [1; 0; 0; 1; 50; 700]%float "g_d0_f1".

Definition exItemAt (x y : float) (text : string) : TextItem.t :=
  TextItem.mk text "ltr" 40 12 [1; 0; 0; 1; x; y]%float "g_d0_f1".

Definition exPage (items : list TextItem.t) : PdfPage.t :=
  PdfPage.mk (fun scale => Viewport.mk (612 * scale) (792 * scale))
             (Ret tt) (Ret items).

Definition exProxy (pages : list (list TextItem.t)) : PdfDocProxy.t :=
  PdfDocProxy.mk (Z.of_nat (length pages))
    (fun n =>
       if n <? 1 then Exn
       else match pages !! Z.to_nat (n - 1) with
            | Some items => Ret (exPage items)
            | None => Exn
            end).

Definition exPdfDoc (n : nat) : PDFDocument.t :=
  PDFDocument.mk (fun _ => Ret tt) (repeat (PageSize.mk 612 792) n)
                 (fun _ _ => Ret tt) (fun _ _ _ => Ret tt) (Ret []).

Definition exLib (n : nat) : PDFLib.t := PDFLib.mk (fun _ => Ret (exPdfDoc n)).

Definition exCanvas : Canvas.t := Canvas.mk (fun v => v).

Definition exEnv (pages : list (list TextItem.t)) : Env.t :=
  Env.mk (Some exCanvas) (Ret tt) (fun _ => Ret (exProxy pages)) Attached
         (Some (exLib (length pages))).

Definition exFile : File.t := File.mk pdfMime (Ret []).

(** A file that is not empty, and an environment in which the rasterizer
    transfers the buffer it is handed to its worker, while the mutation
    library cannot load a detached buffer. *)
Definition exBytes : Bytes := [Byte.x25; Byte.x50].

Definition exFileBytes : File.t := File.mk pdfMime (Ret exBytes).

Definition exStrictLib (n : nat) : PDFLib.t :=
  PDFLib.mk (fun buf =>
               match buf with
               | Attached _ => Ret (exPdfDoc n)
               | Detached => Exn
               end).

Definition exTransferEnv (pages : list (list TextItem.t)) : Env.t :=
  Env.mk (Some exCanvas) (Ret tt) (fun _ => Ret (exProxy pages))
         (fun _ => Detached) (Some (exStrictLib (length pages))).

(** The session state after the example document has been loaded and
    page 1 rendered. *)
Definition exLoaded (pages : list (list TextItem.t)) : AppState :=
  session [(exEnv pages, OnFileSelected (Some [exFile]))] initialState.

(** One page, one fragment. *)
Definition exOne : list (list TextItem.t) := [[exItem]].

(** Two pages: three fragments on the first, one on the second. *)
Definition exTwo : list (list TextItem.t) :=
  [[exItemAt 50 700 "a"; exItemAt 50 680 "b"; exItemAt 50 660 "c"];
   [exItemAt 72 700 "d"]].

(** The one-page example with its fragment edited. *)
Definition exEdited : AppState := updateText 0 "World" (exLoaded exOne).


(** The two-page example with fragment 0 of page 1 edited, and an edit
    left over for a fragment 5 that page 1 does not have. *)
Definition exStale : AppState :=
  updateText 5 "stale" (updateText 0 "ok" (exLoaded exTwo)).

(** ** The zoom read-out (line 32) *)

Module JsRound.

Definition two52 : float := 0x1p52%float.

(** The integer nearest to a finite [x] with [|x| < 2^52], ties to even:
    at [2^52] and beyond the spacing of binary64 values is 1. *)
Definition rint (x : float) : float :=
  if (x <? 0)%float then ((x - two52) + two52)%float
  else ((x + two52) - two52)%float.

Definition floor (x : float) : float :=
  let r := rint x in if (x <? r)%float then (r - 1)%float else r.

(** [Math.round(x)]: NaN, the infinities and integral values are returned
    as they are; otherwise the nearest integer, a tie going towards
    positive infinity; a zero result takes the sign of [x]. *)
Definition Math_round (x : float) : float :=
  if PrimFloat.is_nan x then x
  else if PrimFloat.is_infinity x then x
  else if (two52 <=? PrimFloat.abs x)%float then x
  else
    let f := floor x in
    let r := if (0.5 <=? x - f)%float then (f + 1)%float else f in
    if PrimFloat.is_zero r then
      if ((x <? 0)%float || (PrimFloat.is_zero x && PrimFloat.get_sign x))%bool
      then PrimFloat.neg_zero else PrimFloat.zero
    else r.

End JsRound.

(** [computed(() => Math.round(this.zoom() * 100))] *)
Definition roundedZoom (st : AppState) : float :=
  JsRound.Math_round (zoom st * 100)%float.

(** The percentages the read-out can show. *)
Definition percentGrid : list float :=
  [50; 75; 100; 125; 150; 175; 200; 225; 250; 275; 300]%float.

(** ** Library Loader (lines 47-80)

    The part of a call that runs at once (the promise executors append
    script elements) is kept apart from the settlement (the appended
    scripts are fetched, those that arrive run, and the load events
    fire). *)

Module Loader.

Definition pdfJsUrl : string :=
  "https://cdnjs.cloudflare.com/ajax/libs/pdf.js/4.2.67/pdf.min.js".
Definition pdfLibUrl : string :=
  "https://cdn.jsdelivr.net/npm/pdf-lib@1.17.1/dist/pdf-lib.min.js".
Definition workerUrl : string :=
  "https://cdnjs.cloudflare.com/ajax/libs/pdf.js/4.2.67/pdf.worker.min.js".

(** What [scriptsLoadedPromise] holds: a promise still waiting for the
    load events of the script elements it appended, or a fulfilled one.  A
    rejected promise does not stay in the field (line 75). *)
Inductive Promise : Type :=
| Pending (awaited : list string)
| Fulfilled.

Record State : Type := mk {
  scripts : list string;            (* [src] of the document's script elements *)
  scriptsLoadedPromise : option Promise;
  pdfjsLib : option string;         (* the global, with GlobalWorkerOptions.workerSrc *)
}.

(** Lines 47-61: with a script element of this [src] in the document the
    promise resolves at once; otherwise one is appended, which starts the
    fetch, and the promise awaits its load event.  Returns the document
    and the elements awaited. *)
Definition loadScript (url : string) (doc : list string)
    : list string * list string :=
  if existsb (String.eqb url) doc then (doc, []) else (doc ++ [url], [url]).

(** Lines 63-80, the part that runs at once.  Returns the state and the
    [src] of the script elements this call appended. *)
Definition loadPdfLibraries (st : State) : State * list string :=
  match scriptsLoadedPromise st with
  | Some _ => (st, [])
  | None =>
      let '(doc1, w1) := loadScript pdfJsUrl (scripts st) in
      let '(doc2, w2) := loadScript pdfLibUrl doc1 in
      (mk doc2 (Some (Pending (w1 ++ w2))) (pdfjsLib st), w1 ++ w2)
  end.

(** Lines 69-72: the worker location is set when the global is there and
    its [workerSrc] is falsy. *)
Definition configureWorker (g : option string) : option string :=
  match g with
  | Some workerSrc =>
      if String.eqb workerSrc "" then Some workerUrl else Some workerSrc
  | None => None
  end.

(** The load events arrive: [loaded url] tells [onload] from [onerror].
    A script that arrived has run before its [onload] fires, and it is the
    rasterizer's script that defines the [pdfjsLib] global: [ran g] is
    what the scripts that ran leave in the global, which held [g] before.
    Then the handlers of lines 68-77 run. *)
Definition settle (loaded : string -> bool)
    (ran : option string -> option string) (st : State) : State :=
  match scriptsLoadedPromise st with
  | Some (Pending awaited) =>
      let g := if existsb loaded awaited then ran (pdfjsLib st) else pdfjsLib st in
      if forallb loaded awaited then
        mk (scripts st) (Some Fulfilled) (configureWorker g)
      else mk (scripts st) None g
  | _ => st
  end.

(** What a caller awaiting the promise of a state resumes with, given the
    load events. *)
Definition awaited (loaded : string -> bool) (st : State) : result unit :=
  match scriptsLoadedPromise st with
  | Some (Pending urls) => if forallb loaded urls then Ret tt else Exn
  | _ => Ret tt
  end.

Inductive Action : Type :=
| Call
| Settle (loaded : string -> bool) (ran : option string -> option string).

Definition step (a : Action) (st : State) : State * list string :=
  match a with
  | Call => loadPdfLibraries st
  | Settle loaded ran => (settle loaded ran st, [])
  end.

(** A run of calls and settlements: the state reached and the [src] of
    every script element appended on the way. *)
Fixpoint run (actions : list Action) (st : State) : State * list string :=
  match actions with
  | [] => (st, [])
  | a :: rest =>
      let '(st1, t1) := step a st in
      let '(st2, t2) := run rest st1 in
      (st2, t1 ++ t2)
  end.

(** A page without script elements, before any call. *)
Definition initial : State := mk [] None None.

(** The rasterizer's script as it runs: it defines the global, with no
    worker location yet. *)
Definition definesPdfjs (g : option string) : option string := Some "".

End Loader.

(** ** Invariants of a session *)


(** The current page is 1, or a page of the loaded document. *)
Definition pageInDocument (st : AppState) : Prop :=
  currentPage st = 1 \/ 1 <= currentPage st <= totalPages st.

(** Edits are recorded under page 1 or a page of the loaded document. *)
Definition editsInDocument (st : AppState) : Prop :=
  forall (p : Z) (r : ref),
    In (p, r) (overlayOf st) -> p = 1 \/ 1 <= p <= totalPages st.

(** No two pages of the overlay share a sub-mapping. *)
Definition subMapsDistinct (st : AppState) : Prop :=
  List.NoDup (map snd (overlayOf st)).

Definition sessionInv (st : AppState) : Prop :=
  wf st /\ pageInDocument st /\ editsInDocument st /\ subMapsDistinct st /\
  In (zoom st) zoomGrid.

(** Actions other than a file selection. *)
Definition keepsDocument (a : Action) : bool :=
  match a with
  | OnFileSelected _ => false
  | _ => true
  end.

Definition isAlert (e : Event) : bool :=
  match e with
  | Alert _ => true
  | _ => false
  end.

Definition renderFailedNotice : string :=
  "An error occurred while rendering the page.".

(** The session that leads to [exStale]. *)
Definition exStaleScript : list (Env.t * Action) :=
  [(exEnv exTwo, OnFileSelected (Some [exFile]));
   (exEnv exTwo, UpdateText 0 "ok");
   (exEnv exTwo, UpdateText 5 "stale")].

(** A document whose first page cannot be fetched. *)
Definition exBrokenProxy : PdfDocProxy.t := PdfDocProxy.mk 3 (fun _ => Exn).

(** [st'] shows the same document, page, zoom and edits as [st]. *)
Definition sameView (st st' : AppState) : Prop :=
  currentPage st' = currentPage st /\ totalPages st' = totalPages st /\
  zoom st' = zoom st /\ editedTexts st' = editedTexts st /\
  heap st' = heap st /\ pdfDocProxy st' = pdfDocProxy st /\
  textItems st' = textItems st.

(** * Properties *)

(** ** Frame lemmas for the renderer *)

(** Every way through [renderPage]: the two guards, then each call of the
    [try] block failing or not. *)
Ltac render_cases env pageNum st :=
  unfold renderPage, renderBody;
  let proxy := fresh "proxy" in
  let page := fresh "page" in
  destruct (pdfDocProxy st) as [proxy|] eqn:?; simpl;
  [ destruct ((pageNum <? 1) || (totalPages st <? pageNum))%bool eqn:?; simpl;
    [ | destruct (Env.canvasRef env) eqn:?; simpl;
        [ destruct (PdfDocProxy.getPage proxy pageNum) as [page|]; simpl;
          [ destruct (PdfPage.render page); simpl;
            [ destruct (PdfPage.getTextContent page); simpl | ] | ] | ] ] | ].

Lemma renderPage_frame env pageNum st :
  let st' := fst (renderPage env pageNum st) in
  zoom st' = zoom st /\ editedTexts st' = editedTexts st /\
  heap st' = heap st /\ totalPages st' = totalPages st /\
  pdfDocProxy st' = pdfDocProxy st /\ pdfFileBuffer st' = pdfFileBuffer st.
Proof. render_cases env pageNum st; tauto. Qed.

Lemma renderPage_zoom env pageNum st :
  zoom (fst (renderPage env pageNum st)) = zoom st.
Proof. apply (renderPage_frame env pageNum st). Qed.

(** ** Zoom *)

Lemma zoomGrid_inRange z : In z zoomGrid -> zoomInRange z.
Proof.
  unfold zoomGrid; simpl; intros H.
  repeat (destruct H as [<-|H]; [split; reflexivity|]).
  destruct H.
Qed.

Lemma zoomIn_update_grid z :
  In z zoomGrid ->
  In (zoomIn_update z) zoomGrid /\ zoomStepped ZoomIn z (zoomIn_update z).
Proof.
  unfold zoomGrid; simpl; intros H.
  repeat (destruct H as [<-|H]; [split; [vm_compute; tauto | reflexivity]|]).
  destruct H.
Qed.

Lemma zoomOut_update_grid z :
  In z zoomGrid ->
  In (zoomOut_update z) zoomGrid /\ zoomStepped ZoomOut z (zoomOut_update z).
Proof.
  unfold zoomGrid; simpl; intros H.
  repeat (destruct H as [<-|H]; [split; [vm_compute; tauto | reflexivity]|]).
  destruct H.
Qed.

Lemma zoom_step_grid env a st :
  isZoomStep a = true -> In (zoom st) zoomGrid ->
  In (zoom (fst (step env a st))) zoomGrid /\
  zoomStepped a (zoom st) (zoom (fst (step env a st))).
Proof.
  intros Ha Hz; destruct a; try discriminate Ha; simpl;
    unfold zoomIn, zoomOut; rewrite renderPage_zoom; simpl.
  - now apply zoomIn_update_grid.
  - now apply zoomOut_update_grid.
Qed.

Lemma zoom_session_grid script : forall st,
  Forall (fun ea => isZoomStep (snd ea) = true) script ->
  In (zoom st) zoomGrid ->
  Forall (fun st' => In (zoom st') zoomGrid) (sessionStates script st) /\
  everyStep (fun s a s' => zoomStepped a (zoom s) (zoom s')) script st.
Proof.
  induction script as [|[env a] rest IH]; intros st Hall Hz; simpl.
  - split; [constructor | exact I].
  - inversion Hall as [|? ? Ha Hrest]; subst; simpl in Ha.
    destruct (zoom_step_grid env a st Ha Hz) as [Hg Hs].
    destruct (IH _ Hrest Hg) as [IH1 IH2].
    split; [constructor; assumption | split; assumption].
Qed.

(** C9 (as amended).  Along every finite sequence of zoom-in and zoom-out
    actions started at the initial zoom factor, the factor after every
    step lies between the configured minimum and maximum, and every step
    moves it by exactly the fixed increment, except that zooming in at the
    maximum and zooming out at the minimum leave it where it is. *)
Theorem C9_zoom_stays_in_range (script : list (Env.t * Action)) (st : AppState) :
  zoom st = zoom_initial ->
  Forall (fun ea => isZoomStep (snd ea) = true) script ->
  Forall (fun st' => zoomInRange (zoom st')) (sessionStates script st) /\
  everyStep (fun s a s' => zoomStepped a (zoom s) (zoom s')) script st.
Proof.
  intros H0 Hall.
  destruct (zoom_session_grid script st Hall) as [Hg Hs].
  - rewrite H0; vm_compute; tauto.
  - split; [|exact Hs].
    eapply Forall_impl; [exact Hg|].
    intros s; apply zoomGrid_inRange.
Qed.

Lemma C9_zoom_stays_in_range_witness :
  Forall (fun st' => zoomInRange (zoom st'))
    (sessionStates [(bareEnv, ZoomIn); (bareEnv, ZoomOut); (bareEnv, ZoomOut)]
       initialState) /\
  everyStep (fun s a s' => zoomStepped a (zoom s) (zoom s'))
    [(bareEnv, ZoomIn); (bareEnv, ZoomOut); (bareEnv, ZoomOut)] initialState.
Proof.
  apply (C9_zoom_stays_in_range
           [(bareEnv, ZoomIn); (bareEnv, ZoomOut); (bareEnv, ZoomOut)]
           initialState).
  - reflexivity.
  - repeat constructor.
Defined.

(** C9 (as stated) fails at the bound: seven zoom-in steps take the factor
    from 1.25 to 3, and the eighth leaves it at 3 instead of changing it
    by 0.25. *)
Lemma C9_step_at_max_is_not_an_increment :
  let script := repeat (bareEnv, ZoomIn) 7 in
  let before := session script initialState in
  let after := fst (step bareEnv ZoomIn before) in
  zoom before = 3%float /\ zoom after = 3%float /\
  ((zoom after - zoom before)%float =? zoom_step)%float = false.
Proof. vm_compute. repeat split. Qed.

(** ** Store lemmas *)

Lemma derefOverlay_alloc h m :
  Heap.derefOverlay (snd (Heap.allocOverlay h m)) (fst (Heap.allocOverlay h m)) = m.
Proof.
  unfold Heap.derefOverlay, Heap.allocOverlay; simpl.
  rewrite lookup_app_r by reflexivity.
  now rewrite Nat.sub_diag.
Qed.

Lemma renderPage_currentPage env pageNum st :
  currentPage (fst (renderPage env pageNum st)) = pageNum \/
  fst (renderPage env pageNum st) = st.
Proof. render_cases env pageNum st; tauto. Qed.

Lemma renderPage_no_canvas env pageNum st :
  Env.canvasRef env = None -> fst (renderPage env pageNum st) = st.
Proof.
  intros Hc; unfold renderPage; rewrite Hc.
  destruct (pdfDocProxy st); [|reflexivity].
  now destruct (_ || _)%bool.
Qed.

(** ** Document loading *)

(** C8.  A selected file whose declared MIME type is not
    [application/pdf] is turned away with a notice before anything else
    happens: the component state (byte buffer, parsed handle, page number,
    page count, overlay, and all the rest) is the state before, and the
    notice is the only thing logged, so neither the rasterizer nor any
    other library was called. *)
Theorem C8_non_pdf_file_rejected (file : File.t) (others : list File.t)
    (env : Env.t) (st : AppState) :
  File.type file <> pdfMime ->
  fst (onFileSelected (Some (file :: others)) env st) = st /\
  snd (onFileSelected (Some (file :: others)) env st)
    = [Alert "Please select a PDF file."] /\
  Forall (fun e => is_library_call e = false)
    (snd (onFileSelected (Some (file :: others)) env st)).
Proof.
  intros Hty; unfold onFileSelected.
  apply String.eqb_neq in Hty; rewrite Hty; simpl.
  repeat split; repeat constructor.
Qed.

Lemma C8_non_pdf_file_rejected_witness :
  fst (onFileSelected (Some [File.mk "text/plain" (Ret [])]) bareEnv initialState)
    = initialState /\
  snd (onFileSelected (Some [File.mk "text/plain" (Ret [])]) bareEnv initialState)
    = [Alert "Please select a PDF file."] /\
  Forall (fun e => is_library_call e = false)
    (snd (onFileSelected (Some [File.mk "text/plain" (Ret [])]) bareEnv initialState)).
Proof.
  apply (C8_non_pdf_file_rejected (File.mk "text/plain" (Ret [])) [] bareEnv
           initialState).
  discriminate.
Defined.

(** The buffer [file.arrayBuffer()] has just made is attached. *)
Lemma derefBuffer_new st v data :
  derefBuffer (set_pdfFileBuffer v (set_buffers (buffers st ++ [Attached data]) st))
    (length (buffers st)) = Attached data.
Proof.
  unfold derefBuffer; simpl.
  rewrite lookup_app_r by reflexivity. now rewrite Nat.sub_diag.
Qed.

Lemma loadPdf_resets env fileBuffer data pdf st :
  derefBuffer st fileBuffer = Attached data ->
  Env.getDocument env data = Ret pdf ->
  let st' := fst (loadPdf env fileBuffer st) in
  overlayOf st' = JsMap.empty /\ currentPage st' = 1 /\
  totalPages st' = PdfDocProxy.numPages pdf /\
  snd (snd (loadPdf env fileBuffer st)) = Ret tt.
Proof.
  intros Hbuf Hdoc; unfold loadPdf; rewrite Hbuf, Hdoc.
  set (st3 := set_currentPage 1 _).
  pose proof (derefOverlay_alloc (heap st3) JsMap.empty) as Hnew.
  destruct (Heap.allocOverlay (heap st3) JsMap.empty) as [fresh h] eqn:Ha.
  simpl in Hnew.
  set (st4 := set_overlay fresh h st3).
  pose proof (renderPage_frame env 1 st4) as (_ & He & Hh & Ht & _).
  pose proof (renderPage_currentPage env 1 st4) as Hc.
  destruct (renderPage env 1 st4) as [st5 t]; simpl in *.
  repeat split.
  - unfold overlayOf; now rewrite He, Hh.
  - destruct Hc as [Hc|Hc]; [exact Hc | now rewrite Hc].
  - now rewrite Ht.
Qed.

(** C6.  Whatever the session state was, once a newly selected document
    has been read and parsed, the chain ends with an empty Edit Overlay,
    current page 1, and a total page count equal to the new document's.
    This holds whether or not the render of page 1 that follows goes
    through. *)
Theorem C6_load_resets_session (file : File.t) (others : list File.t)
    (env : Env.t) (st : AppState) (fileBuffer : Bytes)
    (pdf : PdfDocProxy.t) :
  File.type file = pdfMime ->
  Env.loadPdfLibraries env = Ret tt ->
  File.arrayBuffer file = Ret fileBuffer ->
  Env.getDocument env fileBuffer = Ret pdf ->
  let st' := fst (onFileSelected (Some (file :: others)) env st) in
  overlayOf st' = JsMap.empty /\ currentPage st' = 1 /\
  totalPages st' = PdfDocProxy.numPages pdf.
Proof.
  intros Hty Hlib Hbuf Hdoc; unfold onFileSelected.
  rewrite Hty, Hlib, Hbuf; simpl.
  set (st2 := set_pdfFileBuffer _ _).
  pose proof (loadPdf_resets env (length (buffers st)) fileBuffer pdf st2
                (derefBuffer_new (set_isLoading true st) _ fileBuffer) Hdoc)
    as (Ho & Hc & Ht & Hr).
  destruct (loadPdf env (length (buffers st)) st2) as [st3 [t r]]; simpl in *.
  subst r; simpl; tauto.
Qed.

Lemma C6_load_resets_session_witness :
  let st' := fst (onFileSelected (Some [exFile]) (exEnv exTwo) exStale) in
  overlayOf exStale <> JsMap.empty /\
  overlayOf st' = JsMap.empty /\ currentPage st' = 1 /\ totalPages st' = 2.
Proof.
  split; [discriminate|].
  apply (C6_load_resets_session exFile [] (exEnv exTwo) exStale []
           (exProxy exTwo)); reflexivity.
Defined.

(** C3 (the code departs from it).  A PDF file is selected, the libraries
    load, the bytes are read and parsed, and the render of page 1 finds no
    canvas: [renderPage] returns at line 142 without touching the flag
    that line 94 raised, no exception reaches the handler of line 107, and
    the chain ends with [isLoading] still true. *)
Theorem C3_flag_stuck_when_canvas_missing (st : AppState)
    (others : list File.t) (fileBuffer : Bytes) (pdf : PdfDocProxy.t)
    (leaves : Bytes -> ArrayBuffer) (lib : option PDFLib.t) :
  let file := File.mk pdfMime (Ret fileBuffer) in
  let env := Env.mk None (Ret tt) (fun _ => Ret pdf) leaves lib in
  isLoading (fst (onFileSelected (Some (file :: others)) env st)) = true.
Proof.
  intros file env; unfold onFileSelected, loadPdf; simpl.
  rewrite (derefBuffer_new (set_isLoading true st)); simpl.
  match goal with
  | |- context [renderPage env 1 ?s] =>
      pose proof (renderPage_no_canvas env 1 s eq_refl) as Hr;
      destruct (renderPage env 1 s) as [st5 t]
  end.
  simpl in *; now subst st5.
Qed.

(** X2.  The other chains do clear the flag.  A render started with the
    flag down ends with the flag down, on every way through it. *)
Lemma renderPage_clears_flag env pageNum st :
  isLoading st = false -> isLoading (fst (renderPage env pageNum st)) = false.
Proof. intros H0; render_cases env pageNum st; auto. Qed.

Lemma renderPage_clears_flag_witness :
  isLoading (fst (renderPage (exEnv exTwo) 2 (exLoaded exTwo))) = false.
Proof. apply (renderPage_clears_flag (exEnv exTwo) 2 (exLoaded exTwo)); reflexivity. Defined.

(** A render that gets past both guards ends with the flag down, whatever
    it was before. *)
Lemma renderPage_past_guards env pageNum st canvas :
  pdfDocProxy st <> None -> 1 <= pageNum <= totalPages st ->
  Env.canvasRef env = Some canvas ->
  isLoading (fst (renderPage env pageNum st)) = false.
Proof.
  intros Hproxy Hrange Hcanvas; render_cases env pageNum st;
    try reflexivity; try congruence.
  apply orb_true_iff in Heqb as [H|H]; apply Z.ltb_lt in H; lia.
Qed.

(** X1.  From a state with the flag down, the load chain leaves it up
    only through an early return of its render of page 1: the canvas is
    missing, or the parsed document reports no page. *)
Lemma onFileSelected_flag_up files env st :
  isLoading st = false ->
  isLoading (fst (onFileSelected files env st)) = true ->
  exists file others fileBuffer pdf,
    files = Some (file :: others) /\ File.type file = pdfMime /\
    File.arrayBuffer file = Ret fileBuffer /\
    Env.getDocument env fileBuffer = Ret pdf /\
    (Env.canvasRef env = None \/ PdfDocProxy.numPages pdf < 1).
Proof.
  intros H0; unfold onFileSelected.
  destruct files as [[|file others]|]; simpl;
    [intros Hup; congruence | | intros Hup; congruence].
  destruct (String.eqb_spec (File.type file) pdfMime) as [Hty|Hty]; simpl;
    [|intros Hup; congruence].
  destruct (Env.loadPdfLibraries env); simpl; [|discriminate].
  destruct (File.arrayBuffer file) as [fileBuffer|] eqn:Hbuf; simpl; [|discriminate].
  unfold loadPdf.
  rewrite (derefBuffer_new (set_isLoading true st)); simpl.
  destruct (Env.getDocument env fileBuffer) as [pdf|] eqn:Hdoc; simpl; [|discriminate].
  intros Hup; exists file, others, fileBuffer, pdf; repeat (split; [auto|]).
  destruct (Env.canvasRef env) as [canvas|] eqn:Hcanvas; [right | now left].
  destruct (Z.lt_ge_cases (PdfDocProxy.numPages pdf) 1) as [Hlt|Hge]; [exact Hlt|].
  match type of Hup with
  | context [renderPage env 1 ?s] =>
      pose proof (renderPage_past_guards env 1 s canvas) as Hdown;
      destruct (renderPage env 1 s) as [st5 t]
  end.
  simpl in *; rewrite Hdown in Hup; [discriminate | discriminate | lia | exact Hcanvas].
Qed.

Lemma onFileSelected_flag_up_witness :
  exists file others fileBuffer pdf,
    Some [exFile] = Some (file :: others) /\ File.type file = pdfMime /\
    File.arrayBuffer file = Ret fileBuffer /\
    Env.getDocument (Env.mk None (Ret tt) (fun _ => Ret (exProxy exOne)) Attached None)
      fileBuffer = Ret pdf /\
    (Env.canvasRef (Env.mk None (Ret tt) (fun _ => Ret (exProxy exOne)) Attached None)
       = None \/ PdfDocProxy.numPages pdf < 1).
Proof.
  apply (onFileSelected_flag_up (Some [exFile])
           (Env.mk None (Ret tt) (fun _ => Ret (exProxy exOne)) Attached None)
           initialState); reflexivity.
Defined.

(** X3.  An export started with the flag down ends with the flag down,
    on every way through it. *)
Lemma downloadPdf_clears_flag env st :
  isLoading st = false -> isLoading (fst (downloadPdf env st)) = false.
Proof.
  intros H0; unfold downloadPdf.
  destruct (pdfFileBuffer st) as [buf|]; [|exact H0].
  destruct (Env.PDFLib env) as [lib|]; [|exact H0].
  destruct (_ =? _)%nat; [exact H0|].
  now destruct (exportBody lib _ _) as [t r].
Qed.

Lemma downloadPdf_clears_flag_witness :
  isLoading (fst (downloadPdf (exEnv exOne) exEdited)) = false.
Proof. apply (downloadPdf_clears_flag (exEnv exOne) exEdited); reflexivity. Defined.

(** ** JavaScript [Map] facts *)

Section JsMapFacts.
Context {K V : Type} `{EqDecision K}.
Implicit Types (k : K) (v : V) (m : JsMap.t K V).

Lemma get_set_eq k v m : JsMap.get k (JsMap.set k v m) = Some v.
Proof.
  induction m as [|[k' v'] m IH]; simpl.
  - now rewrite decide_True.
  - destruct (decide (k = k')) as [->|Hne]; simpl.
    + now rewrite decide_True.
    + now rewrite decide_False.
Qed.

Lemma get_set_ne k k' v m :
  k <> k' -> JsMap.get k' (JsMap.set k v m) = JsMap.get k' m.
Proof.
  intros Hne; induction m as [|[k0 v0] m IH]; simpl.
  - rewrite decide_False; [reflexivity | congruence].
  - destruct (decide (k = k0)) as [->|Hk]; simpl.
    + rewrite !decide_False; [reflexivity | congruence | congruence].
    + destruct (decide (k' = k0)); [reflexivity | exact IH].
Qed.

Lemma get_in k v m : JsMap.get k m = Some v -> In (k, v) m.
Proof.
  induction m as [|[k' v'] m IH]; simpl; [discriminate|].
  destruct (decide (k = k')) as [->|]; [left; congruence | right; auto].
Qed.

Lemma set_absent k v m :
  ~ In k (map fst m) -> JsMap.set k v m = m ++ [(k, v)].
Proof.
  induction m as [|[k' v'] m IH]; simpl; intros Hn; [reflexivity|].
  rewrite decide_False by (intros ->; apply Hn; now left).
  f_equal; apply IH; intros Hin; apply Hn; now right.
Qed.

Lemma in_set k v m k' v' :
  In (k', v') (JsMap.set k v m) -> (k' = k /\ v' = v) \/ In (k', v') m.
Proof.
  induction m as [|[k0 v0] m IH]; simpl.
  - intros [Heq|[]]; left; split; congruence.
  - destruct (decide (k = k0)) as [->|Hk]; simpl.
    + intros [Heq|Hin]; [left; split; congruence | right; now right].
    + intros [Heq|Hin]; [right; now left|].
      destruct (IH Hin) as [?|?]; [now left | right; now right].
Qed.

Lemma keys_set k v m k' :
  In k' (map fst (JsMap.set k v m)) <-> k' = k \/ In k' (map fst m).
Proof.
  induction m as [|[k0 v0] m IH]; simpl.
  - split; intros [->|[]]; now left.
  - destruct (decide (k = k0)) as [->|Hk]; simpl.
    + split; [intros [->|?] | intros [->|[->|?]]]; auto.
    + rewrite IH; tauto.
Qed.

Lemma set_keys_unique k v m :
  JsMap.keys_unique m -> JsMap.keys_unique (JsMap.set k v m).
Proof.
  unfold JsMap.keys_unique.
  induction m as [|[k0 v0] m IH]; simpl; intros Hnd.
  - constructor; [simpl; tauto | constructor].
  - apply List.NoDup_cons_iff in Hnd as [Hn Hnd].
    destruct (decide (k = k0)) as [->|Hk]; simpl.
    + apply List.NoDup_cons_iff; split; assumption.
    + apply List.NoDup_cons_iff; split; [|now apply IH].
      rewrite keys_set; intros [Heq|Hin]; [congruence | contradiction].
Qed.

Lemma fold_set_fresh m : forall acc : JsMap.t K V,
  List.NoDup (map fst (acc ++ m)) ->
  fold_left (fun a kv => JsMap.set (fst kv) (snd kv) a) m acc = acc ++ m.
Proof.
  induction m as [|[k v] m IH]; intros acc Hnd; simpl.
  - now rewrite app_nil_r.
  - rewrite set_absent.
    + rewrite IH; rewrite <- app_assoc; [reflexivity | exact Hnd].
    + rewrite map_app in Hnd; simpl in Hnd.
      apply List.NoDup_remove_2 in Hnd.
      intros Hin; apply Hnd; apply in_or_app; now left.
Qed.

Lemma copy_unique m : JsMap.keys_unique m -> JsMap.copy m = m.
Proof. intros Hnd; apply (fold_set_fresh m []); exact Hnd. Qed.

End JsMapFacts.

(** ** The store under [updateText] *)

Lemma wf_lookup_overlay st :
  wf st ->
  Heap.overlays (heap st) !! editedTexts st = Some (overlayOf st).
Proof.
  intros [Hlive _]; unfold overlayOf, Heap.derefOverlay.
  destruct (Heap.overlays (heap st) !! editedTexts st) eqn:E; [reflexivity|].
  apply lookup_ge_None_1 in E; unfold Heap.liveOverlay in Hlive; lia.
Qed.

(** What [updateText] leaves in the store: the page's sub-mapping [r]
    (found, or allocated when the page had none) is written in place, the
    overlay object held before is written in place, and a copy of it is
    allocated and becomes the signal's value. *)
Lemma updateText_heap st i s :
  wf st ->
  let h := heap st in
  let o := editedTexts st in
  let m := overlayOf st in
  let p := currentPage st in
  exists (r : ref) (pm1 : list PageEdits),
    ((JsMap.get p m = Some r /\ pm1 = Heap.pageMaps h) \/
     (JsMap.get p m = None /\ r = length (Heap.pageMaps h) /\
      pm1 = Heap.pageMaps h ++ [JsMap.empty])) /\
    (r < length pm1)%nat /\
    heap (updateText i s st) =
      Heap.mk (<[r := JsMap.set i s (Heap.derefPage h r)]> pm1)
              (<[o := JsMap.set p r m]> (Heap.overlays h) ++ [JsMap.set p r m]) /\
    editedTexts (updateText i s st) = length (Heap.overlays h).
Proof.
  intros Hwf h o m p.
  pose proof (wf_lookup_overlay st Hwf) as Hm.
  destruct Hwf as [Hlive Hclosed].
  destruct (Hclosed _ _ Hm) as [Huniq Hrefs].
  fold o h m in Hm.
  unfold updateText; fold o h p.
  change (Heap.derefOverlay h o) with m.
  destruct (JsMap.get p m) as [r|] eqn:Hget.
  - exists r, (Heap.pageMaps h).
    assert (Hr : (r < length (Heap.pageMaps h))%nat).
    { apply (Hrefs p r), get_in, Hget. }
    split; [left; auto|]. split; [exact Hr|].
    unfold Heap.allocOverlay, Heap.writeOverlay, Heap.writePage,
      Heap.derefOverlay; simpl.
    fold h; rewrite Hm; simpl.
    rewrite list_lookup_insert_eq by exact Hlive; simpl.
    rewrite copy_unique by (apply set_keys_unique, Huniq).
    rewrite length_insert. split; reflexivity.
  - exists (length (Heap.pageMaps h)), (Heap.pageMaps h ++ [JsMap.empty]).
    split; [right; auto|].
    split; [rewrite length_app; simpl; lia|].
    unfold Heap.allocOverlay, Heap.writeOverlay, Heap.writePage,
      Heap.allocPage, Heap.derefOverlay, Heap.derefPage; simpl.
    fold h; rewrite Hm; simpl.
    rewrite list_lookup_insert_eq by exact Hlive; simpl.
    rewrite copy_unique by (apply set_keys_unique, Huniq).
    rewrite length_insert.
    rewrite lookup_app_r by reflexivity. rewrite Nat.sub_diag; simpl.
    rewrite (lookup_ge_None_2 (Heap.pageMaps h)) by reflexivity.
    split; reflexivity.
Qed.

Lemma lookup_snoc_other {A : Type} (l : list A) (x : A) (j : nat) :
  j <> length l -> (l ++ [x]) !! j = l !! j.
Proof.
  intros Hj; destruct (Nat.lt_ge_cases j (length l)) as [Hlt|Hge].
  - now apply lookup_app_l.
  - rewrite (lookup_ge_None_2 l) by exact Hge.
    apply lookup_ge_None_2; rewrite length_app; simpl; lia.
Qed.

(** The same, read through references. *)
Lemma updateText_reads st i s :
  wf st ->
  let st' := updateText i s st in
  let o := editedTexts st in
  let p := currentPage st in
  exists r : ref,
    (JsMap.get p (overlayOf st) = Some r \/
     (JsMap.get p (overlayOf st) = None /\
      r = length (Heap.pageMaps (heap st)))) /\
    editedTexts st' = length (Heap.overlays (heap st)) /\
    Heap.derefOverlay (heap st') o = JsMap.set p r (overlayOf st) /\
    overlayOf st' = JsMap.set p r (overlayOf st) /\
    Heap.derefPage (heap st') r = JsMap.set i s (Heap.derefPage (heap st) r) /\
    (forall r', r' <> r ->
       Heap.derefPage (heap st') r' = Heap.derefPage (heap st) r') /\
    (forall o', o' <> o -> o' <> editedTexts st' ->
       Heap.derefOverlay (heap st') o' = Heap.derefOverlay (heap st) o').
Proof.
  intros Hwf st' o p.
  destruct (updateText_heap st i s Hwf) as (r & pm1 & Hcase & Hr & Hh & He).
  pose proof Hwf as [Hlive _]; unfold Heap.liveOverlay in Hlive.
  exists r. fold st' in Hh, He. fold o p in Hh.
  split; [destruct Hcase as [[? _]|(? & ? & _)]; auto|].
  split; [exact He|].
  unfold overlayOf at 2; rewrite He, Hh.
  unfold Heap.derefOverlay, Heap.derefPage; simpl.
  repeat split.
  - rewrite lookup_app_l by (rewrite length_insert; exact Hlive).
    now rewrite list_lookup_insert_eq by exact Hlive.
  - rewrite lookup_app_r by (rewrite length_insert; reflexivity).
    now rewrite length_insert, Nat.sub_diag.
  - now rewrite list_lookup_insert_eq by exact Hr.
  - intros r' Hne.
    rewrite list_lookup_insert_ne by congruence.
    destruct Hcase as [[_ ->]|(_ & -> & ->)]; [reflexivity|].
    now rewrite lookup_snoc_other.
  - intros o' Hne Hne'.
    rewrite lookup_snoc_other by (rewrite length_insert; exact Hne').
    now rewrite list_lookup_insert_ne by congruence.
Qed.

(** ** The invariant *)

Lemma wf_initialState : wf initialState.
Proof.
  split; [unfold Heap.liveOverlay; simpl; lia|].
  intros o m Hm.
  destruct o as [|o]; simpl in Hm; [|now destruct o].
  injection Hm as <-; split; [constructor | intros p r []].
Qed.

Lemma wf_same_store st st' :
  heap st' = heap st -> editedTexts st' = editedTexts st -> wf st -> wf st'.
Proof. unfold wf; intros -> ->; tauto. Qed.

Lemma wf_updateText i s st : wf st -> wf (updateText i s st).
Proof.
  intros Hwf.
  destruct (updateText_heap st i s Hwf) as (r & pm1 & Hcase & Hr & Hh & He).
  pose proof (wf_lookup_overlay st Hwf) as Hm.
  destruct Hwf as [Hlive Hclosed]; unfold Heap.liveOverlay in Hlive.
  destruct (Hclosed _ _ Hm) as [Huniq Hrefs].
  assert (Hgrow : (length (Heap.pageMaps (heap st)) <= length pm1)%nat).
  { destruct Hcase as [[_ ->]|(_ & _ & ->)];
      [reflexivity | rewrite length_app; lia]. }
  assert (Hnew : JsMap.keys_unique (JsMap.set (currentPage st) r (overlayOf st)) /\
                 forall p' r', In (p', r') (JsMap.set (currentPage st) r (overlayOf st)) ->
                   (r' < length pm1)%nat).
  { split; [apply set_keys_unique, Huniq|].
    intros p' r' Hin; apply in_set in Hin as [[_ ->]|Hin]; [exact Hr|].
    specialize (Hrefs _ _ Hin); unfold Heap.livePage in Hrefs; lia. }
  split.
  - unfold Heap.liveOverlay; rewrite He, Hh; simpl.
    rewrite length_app, length_insert; simpl; lia.
  - rewrite Hh; intros o' m' Hm'; simpl in Hm'.
    unfold Heap.livePage; simpl; rewrite length_insert.
    apply lookup_app_Some in Hm' as [Hm'|[_ Hm']].
    + apply list_lookup_insert_Some in Hm' as [(_ & <- & _)|[_ Hm']];
        [exact Hnew|].
      destruct (Hclosed _ _ Hm') as [Hu Hl]; split; [exact Hu|].
      intros p' r' Hin; specialize (Hl _ _ Hin); unfold Heap.livePage in Hl; lia.
    + apply list_lookup_singleton_Some in Hm' as [_ <-]; exact Hnew.
Qed.

Lemma wf_allocEmptyOverlay st :
  wf st ->
  wf (set_overlay (fst (Heap.allocOverlay (heap st) JsMap.empty))
                  (snd (Heap.allocOverlay (heap st) JsMap.empty)) st).
Proof.
  intros [Hlive Hclosed]; split.
  - unfold Heap.liveOverlay; simpl; rewrite length_app; simpl; lia.
  - intros o m Hm; simpl in Hm.
    apply lookup_app_Some in Hm as [Hm|[_ Hm]]; [exact (Hclosed _ _ Hm)|].
    apply list_lookup_singleton_Some in Hm as [_ <-].
    split; [constructor | intros p r []].
Qed.

Lemma wf_renderPage env pageNum st :
  wf st -> wf (fst (renderPage env pageNum st)).
Proof.
  pose proof (renderPage_frame env pageNum st) as (_ & He & Hh & _).
  now apply wf_same_store.
Qed.

Lemma wf_loadPdf env fileBuffer st :
  wf st -> wf (fst (loadPdf env fileBuffer st)).
Proof.
  intros Hwf; unfold loadPdf.
  destruct (derefBuffer st fileBuffer) as [data|]; [|exact Hwf].
  destruct (Env.getDocument env data) as [pdf|]; [|exact Hwf].
  set (st3 := set_currentPage 1 _).
  assert (Hwf3 : wf st3) by (revert Hwf; now apply wf_same_store).
  pose proof (wf_allocEmptyOverlay st3 Hwf3) as Hwf4.
  destruct (Heap.allocOverlay (heap st3) JsMap.empty) as [fresh h]; simpl in Hwf4.
  pose proof (wf_renderPage env 1 _ Hwf4) as Hwf5.
  now destruct (renderPage env 1 _).
Qed.

Lemma wf_onFileSelected files env st :
  wf st -> wf (fst (onFileSelected files env st)).
Proof.
  intros Hwf; unfold onFileSelected.
  destruct files as [[|file others]|]; try exact Hwf.
  destruct (negb _); [exact Hwf|].
  destruct (Env.loadPdfLibraries env); [|exact Hwf].
  destruct (File.arrayBuffer file) as [fileBuffer|]; [|exact Hwf].
  set (st2 := set_pdfFileBuffer _ _).
  assert (Hwf2 : wf st2) by exact Hwf.
  pose proof (wf_loadPdf env (length (buffers (set_isLoading true st))) st2 Hwf2)
    as Hwf3.
  destruct (loadPdf env _ st2) as [st3 [t r]]; simpl in Hwf3.
  destruct r; exact Hwf3.
Qed.

Lemma wf_downloadPdf env st : wf st -> wf (fst (downloadPdf env st)).
Proof.
  intros Hwf; unfold downloadPdf.
  destruct (pdfFileBuffer st) as [buf|]; [|exact Hwf].
  destruct (Env.PDFLib env) as [lib|]; [|exact Hwf].
  destruct (_ =? _)%nat; [exact Hwf|].
  destruct (exportBody lib _ _) as [t r]; exact Hwf.
Qed.

Lemma wf_step env a st : wf st -> wf (fst (step env a st)).
Proof.
  intros Hwf; destruct a; simpl.
  - now apply wf_onFileSelected.
  - now apply wf_renderPage.
  - now apply wf_updateText.
  - unfold goToPrevPage; destruct (_ <? _); [now apply wf_renderPage | exact Hwf].
  - unfold goToNextPage; destruct (_ <? _); [now apply wf_renderPage | exact Hwf].
  - unfold zoomIn; now apply wf_renderPage.
  - unfold zoomOut; now apply wf_renderPage.
  - now apply wf_downloadPdf.
Qed.

(** Every state a session reaches from a well-formed one is well-formed;
    in particular every state reachable from the initial one. *)
Lemma wf_session script : forall st, wf st -> wf (session script st).
Proof.
  induction script as [|[env a] rest IH]; intros st Hwf; simpl; [exact Hwf|].
  apply IH, wf_step, Hwf.
Qed.

Lemma renderPage_store env pageNum st :
  editedTexts (fst (renderPage env pageNum st)) = editedTexts st /\
  heap (fst (renderPage env pageNum st)) = heap st.
Proof. pose proof (renderPage_frame env pageNum st) as (_ & He & Hh & _); auto. Qed.

Lemma wf_reachable script : wf (session script initialState).
Proof. apply wf_session, wf_initialState. Qed.

(** Moving around the document leaves the overlay and the store alone. *)
Lemma navigation_frame env a st :
  isNavigation a = true ->
  editedTexts (fst (step env a st)) = editedTexts st /\
  heap (fst (step env a st)) = heap st.
Proof.
  intros Ha; destruct a; try discriminate Ha; simpl;
    unfold goToPrevPage, goToNextPage, zoomIn, zoomOut.
  - apply renderPage_store.
  - destruct (_ <? _); [apply renderPage_store | tauto].
  - destruct (_ <? _); [apply renderPage_store | tauto].
  - apply (renderPage_store env _ (set_zoom _ st)).
  - apply (renderPage_store env _ (set_zoom _ st)).
Qed.

Lemma navigation_session_frame script : forall st,
  Forall (fun ea => isNavigation (snd ea) = true) script ->
  editedTexts (session script st) = editedTexts st /\
  heap (session script st) = heap st.
Proof.
  induction script as [|[env a] rest IH]; intros st Hall; simpl; [tauto|].
  inversion Hall as [|? ? Ha Hrest]; subst; simpl in Ha.
  destruct (IH (fst (step env a st)) Hrest) as [-> ->].
  now apply navigation_frame.
Qed.

(** ** Edit Tracker *)

(** Where no two keys share a value, a value tells its key. *)
Lemma NoDup_map_snd_inj {A B : Type} (m : list (A * B)) (a b : A) (v : B) :
  List.NoDup (map snd m) -> In (a, v) m -> In (b, v) m -> a = b.
Proof.
  induction m as [|[k w] m IH]; simpl; [tauto|].
  intros Hnd Ha Hb; apply List.NoDup_cons_iff in Hnd as [Hw Hnd].
  destruct Ha as [Ha|Ha], Hb as [Hb|Hb]; try congruence.
  - injection Ha as -> ->. exfalso; apply Hw.
    apply (in_map snd _ (b, v)), Hb.
  - injection Hb as -> ->. exfalso; apply Hw.
    apply (in_map snd _ (a, v)), Ha.
  - now apply IH.
Qed.




Lemma getEditedText_recorded st p i X :
  currentPage st = p -> Heap.lookup (heap st) (editedTexts st) p i = Some X ->
  getEditedText i st = Ret X.
Proof. intros <- H; unfold getEditedText, overlayLookup; now rewrite H. Qed.

Lemma updateText_lookup st i X :
  wf st ->
  Heap.lookup (heap (updateText i X st)) (editedTexts (updateText i X st))
    (currentPage st) i = Some X.
Proof.
  intros Hwf.
  destruct (updateText_reads st i X Hwf) as (r & _ & _ & _ & Hn & Hr & _).
  unfold Heap.lookup; unfold overlayOf in Hn at 1; rewrite Hn.
  rewrite get_set_eq, Hr; apply get_set_eq.
Qed.

(** C5.  After an edit [X] of fragment [i] is recorded on page [p],
    [getEditedText i] read on page [p] is [X]: at once, and after any
    moving around the document (renders of other pages, previous/next,
    zoom) that ends on page [p] again.  And where the overlay has nothing
    for the current page and [i], [getEditedText i] is the text of the
    fragment at [i]. *)
Theorem C5_getEditedText_reads_overlay (st : AppState) (i : nat) :
  wf st ->
  (forall (X : string) (script : list (Env.t * Action)),
     Forall (fun ea => isNavigation (snd ea) = true) script ->
     currentPage (session script (updateText i X st)) = currentPage st ->
     getEditedText i (session script (updateText i X st)) = Ret X) /\
  (forall item : TextItem.t,
     overlayLookup st (currentPage st) i = None ->
     Js.index (textItems st) i = Some item ->
     getEditedText i st = Ret (TextItem.str item)).
Proof.
  intros Hwf; split.
  - intros X script Hnav Hpage.
    destruct (navigation_session_frame script (updateText i X st) Hnav) as [He Hh].
    apply (getEditedText_recorded _ (currentPage st)); [exact Hpage|].
    rewrite He, Hh; now apply updateText_lookup.
  - intros item Hnone Hitem; unfold getEditedText; now rewrite Hnone, Hitem.
Qed.

(** On the two-page example: an edit on page 1, then on to page 2, a
    zoom, and back to page 1. *)
Lemma C5_getEditedText_reads_overlay_witness :
  let st := exLoaded exTwo in
  let script :=
    [(exEnv exTwo, GoToNextPage); (exEnv exTwo, ZoomIn);
     (exEnv exTwo, GoToPrevPage)] in
  currentPage (session [(exEnv exTwo, GoToNextPage)] (updateText 0 "World" st)) = 2 /\
  getEditedText 0 (session script (updateText 0 "World" st)) = Ret "World" /\
  getEditedText 1 st = Ret "b".
Proof.
  assert (Hwf : wf (exLoaded exTwo)) by apply wf_session, wf_initialState.
  split; [reflexivity|].
  destruct (C5_getEditedText_reads_overlay (exLoaded exTwo) 0 Hwf) as [H1 _].
  destruct (C5_getEditedText_reads_overlay (exLoaded exTwo) 1 Hwf) as [_ H2].
  split.
  - apply H1; [repeat constructor | reflexivity].
  - apply (H2 (exItemAt 50 680 "b")); reflexivity.
Defined.

(** C10.  [getEditedText] is partial: with nothing in the overlay for the
    current page and [i], and [i] at or past the end of the rendered
    page's fragment list, the fallback reads [.str] of [undefined] and
    throws. *)
Theorem C10_getEditedText_throws_out_of_range (st : AppState) (i : nat) :
  overlayLookup st (currentPage st) i = None ->
  (length (textItems st) <= i)%nat ->
  getEditedText i st = Exn.
Proof.
  intros Hnone Hlen; unfold getEditedText, Js.index.
  now rewrite Hnone, (lookup_ge_None_2 _ _ Hlen).
Qed.

Lemma C10_getEditedText_throws_out_of_range_witness :
  getEditedText 1 (exLoaded exOne) = Exn.
Proof.
  apply (C10_getEditedText_throws_out_of_range (exLoaded exOne) 1).
  - reflexivity.
  - vm_compute; lia.
Defined.

(** ** Export preconditions *)

(** C7 (as amended).  When no byte buffer is held or the mutation library
    is not available, the export only raises the "no PDF" notice; when
    both are there and the overlay is empty, it only raises the "no
    changes" notice.  Either way the state is left as it was, no library
    is called and nothing is offered for download. *)
Theorem C7_export_preconditions (env : Env.t) (st : AppState) :
  pdfFileBuffer st = None \/ Env.PDFLib env = None \/
    JsMap.size (overlayOf st) = 0%nat ->
  fst (downloadPdf env st) = st /\
  snd (downloadPdf env st) =
    [Alert match pdfFileBuffer st, Env.PDFLib env with
           | Some _, Some _ => noChangesNotice
           | _, _ => noPdfNotice
           end] /\
  Forall (fun e => is_library_call e = false /\ is_download e = false)
    (snd (downloadPdf env st)).
Proof.
  intros Hpre; unfold downloadPdf.
  destruct (pdfFileBuffer st) as [buf|], (Env.PDFLib env) as [lib|];
    [ | split; [|split]; [reflexivity .. | repeat constructor] .. ].
  destruct Hpre as [Hpre|[Hpre|Hpre]]; try discriminate Hpre.
  rewrite Hpre; simpl.
  split; [|split]; [reflexivity .. | repeat constructor].
Qed.

Lemma C7_export_preconditions_witness :
  let st := exLoaded exOne in
  let env := exEnv exOne in
  fst (downloadPdf env st) = st /\
  snd (downloadPdf env st) = [Alert noChangesNotice] /\
  Forall (fun e => is_library_call e = false /\ is_download e = false)
    (snd (downloadPdf env st)).
Proof.
  apply (C7_export_preconditions (exEnv exOne) (exLoaded exOne)).
  right; right; reflexivity.
Defined.

(** C7 (as stated) fails when both preconditions fail together: with an
    empty overlay and no document, as in the initial state, the notice is
    the "no PDF" one, not the "no changes" one. *)
Lemma C7_empty_overlay_without_document :
  JsMap.size (overlayOf initialState) = 0%nat /\
  snd (downloadPdf (exEnv exOne) initialState) = [Alert noPdfNotice] /\
  noPdfNotice <> noChangesNotice.
Proof. repeat split; discriminate. Qed.

(** ** Effects *)

Lemma bind_log_in {A B : Type} (m : Eff A) (k : A -> Eff B) (e : Event) :
  In e (fst (bind m k)) ->
  In e (fst m) \/ exists a, snd m = Ret a /\ In e (fst (k a)).
Proof.
  destruct m as [t [a|]]; simpl; [|now left].
  destruct (k a) as [t' r] eqn:Hk; simpl.
  intros Hin; apply in_app_or in Hin as [Hin|Hin]; [now left|].
  right; exists a; rewrite Hk; auto.
Qed.

Lemma bind_ret_inv {A B : Type} (m : Eff A) (k : A -> Eff B) (b : B) :
  snd (bind m k) = Ret b ->
  exists a, snd m = Ret a /\ snd (k a) = Ret b /\
            fst (bind m k) = fst m ++ fst (k a).
Proof.
  destruct m as [t [a|]]; simpl; [|discriminate].
  destruct (k a) as [t' r] eqn:Hk; simpl.
  intros ->; exists a; rewrite Hk; auto.
Qed.

(** ** Export: one edit *)

(** What [drawEdit] logs: the viewport query, then the cover, then the
    text, both at the position the fragment had on the page at scale 1. *)
Lemma drawEdit_log pdfDoc page pageIndex item newText :
  exists (rect : RectOptions.t) (text : TextOptions.t),
    drawnAt page item (RectOptions.x rect) (RectOptions.y rect) /\
    drawnAt page item (TextOptions.x text) (TextOptions.y text) /\
    (forall e, In e (fst (drawEdit pdfDoc page pageIndex (Some item) newText)) ->
       e = PdfJs_getViewport 1 \/ e = PdfLib_drawRectangle pageIndex rect \/
       e = PdfLib_drawText pageIndex newText text) /\
    (snd (drawEdit pdfDoc page pageIndex (Some item) newText) = Ret tt ->
     fst (drawEdit pdfDoc page pageIndex (Some item) newText) =
       [PdfJs_getViewport 1; PdfLib_drawRectangle pageIndex rect;
        PdfLib_drawText pageIndex newText text]).
Proof.
  unfold drawEdit, call, bind, ret; simpl.
  eexists (RectOptions.mk _ _ _ _ _), (TextOptions.mk _ _ _ _ _); simpl.
  split; [split; reflexivity|]. split; [split; reflexivity|].
  destruct (PDFDocument.drawRectangle pdfDoc pageIndex _); simpl.
  - split; [|reflexivity]. intros e [<-|[<-|[<-|[]]]]; auto.
  - split; [|discriminate]. intros e [<-|[<-|[]]]; auto.
Qed.

(** ** Export: the loop over a page's edits *)

Lemma exportEdits_skip pdfDoc page pageIndex items edits :
  exportEdits pdfDoc page pageIndex items edits =
  exportEdits pdfDoc page pageIndex items
    (List.filter (fun e => itemInRange items (fst e)) edits).
Proof.
  unfold itemInRange.
  induction edits as [|[i s] rest IH]; [reflexivity|].
  cbn [exportEdits List.filter fst].
  destruct (Nat.leb_spec (length items) i) as [Hge|Hlt].
  - rewrite (proj2 (Nat.ltb_ge _ _) Hge); exact IH.
  - rewrite (proj2 (Nat.ltb_lt _ _) Hlt); cbn [exportEdits].
    rewrite (proj2 (Nat.leb_gt _ _) Hlt).
    now rewrite IH.
Qed.

(** Past the guard of line 241 the fragment is there. *)
Lemma index_in_range {A : Type} (items : list A) (i : nat) :
  (i < length items)%nat -> exists item, Js.index items i = Some item.
Proof.
  intros Hlt; unfold Js.index.
  destruct (items !! i) as [item|] eqn:Hitem; [now exists item|].
  apply lookup_ge_None_1 in Hitem; lia.
Qed.

Lemma exportEdits_sound pdfDoc page pageIndex items edits e :
  In e (fst (exportEdits pdfDoc page pageIndex items edits)) ->
  isDrawCall e = true ->
  exists i s item,
    In (i, s) edits /\ Js.index items i = Some item /\
    drawsEdit e pageIndex s page item.
Proof.
  intros Hin Hdraw; revert Hin.
  induction edits as [|[i s] rest IH]; simpl; [intros []|].
  assert (Hrest :
    In e (fst (exportEdits pdfDoc page pageIndex items rest)) ->
    exists i0 s0 item,
      ((i, s) = (i0, s0) \/ In (i0, s0) rest) /\ Js.index items i0 = Some item /\
      drawsEdit e pageIndex s0 page item).
  { intros Hin; destruct (IH Hin) as (i0 & s0 & item & Hi & Hrest).
    exists i0, s0, item; tauto. }
  destruct (Nat.leb_spec (length items) i) as [Hge|Hlt]; [exact Hrest|].
  destruct (index_in_range items i Hlt) as [item Hitem]; rewrite Hitem.
  intros Hin; apply bind_log_in in Hin as [Hin|(u & Hu & Hin)]; [|now apply Hrest].
  destruct (drawEdit_log pdfDoc page pageIndex item s)
    as (rect & text & Hr & Ht & Hlog & _).
  exists i, s, item; split; [now left|]; split; [exact Hitem|].
  destruct (Hlog e Hin) as [-> | [-> | ->]]; [discriminate Hdraw | |].
  - left; now exists rect.
  - right; now exists text.
Qed.

Lemma exportEdits_complete pdfDoc page pageIndex items edits :
  snd (exportEdits pdfDoc page pageIndex items edits) = Ret tt ->
  forall i s item,
    In (i, s) edits -> Js.index items i = Some item ->
    coveredThenDrawn (fst (exportEdits pdfDoc page pageIndex items edits))
      pageIndex s page item.
Proof.
  unfold coveredThenDrawn.
  induction edits as [|[i0 s0] rest IH]; simpl; [intros _ ? ? ? []|].
  destruct (Nat.leb_spec (length items) i0) as [Hge|Hlt].
  - intros Hret i s item [Heq|Hin] Hitem; [|exact (IH Hret i s item Hin Hitem)].
    injection Heq as -> ->.
    unfold Js.index in Hitem; apply lookup_lt_Some in Hitem; lia.
  - destruct (index_in_range items i0 Hlt) as [item0 Hitem0]; rewrite Hitem0.
    intros Hret i s item Hin Hitem.
    apply bind_ret_inv in Hret as ([] & Hd & Hrest & ->).
    destruct (drawEdit_log pdfDoc page pageIndex item0 s0)
      as (rect & text & Hr & Ht & _ & Hlog).
    rewrite (Hlog Hd).
    destruct Hin as [Heq|Hin].
    + injection Heq as -> ->.
      assert (item = item0) as -> by congruence.
      exists rect, text, [PdfJs_getViewport 1],
        (fst (exportEdits pdfDoc page pageIndex items rest)); auto.
    + destruct (IH Hrest i s item Hin Hitem) as (r' & x' & t1 & t2 & -> & ? & ?).
      exists r', x',
        ([PdfJs_getViewport 1; PdfLib_drawRectangle pageIndex rect;
          PdfLib_drawText pageIndex s0 text] ++ t1), t2.
      rewrite <- app_assoc; auto.
Qed.

Lemma exportEdits_no_download pdfDoc page pageIndex items edits e :
  In e (fst (exportEdits pdfDoc page pageIndex items edits)) ->
  is_download e = false.
Proof.
  induction edits as [|[i s] rest IH]; simpl; [intros []|].
  destruct (Nat.leb_spec (length items) i) as [Hge|Hlt]; [exact IH|].
  destruct (index_in_range items i Hlt) as [item Hitem]; rewrite Hitem.
  intros Hin; apply bind_log_in in Hin as [Hin|(u & Hu & Hin)]; [|now apply IH].
  destruct (drawEdit_log pdfDoc page pageIndex item s)
    as (rect & text & _ & _ & Hlog & _).
  now destruct (Hlog e Hin) as [-> | [-> | ->]].
Qed.

Lemma exportEdits_cooperate pdfDoc page pageIndex items edits :
  (forall idx opts, PDFDocument.drawRectangle pdfDoc idx opts = Ret tt) ->
  (forall idx text opts, PDFDocument.drawText pdfDoc idx text opts = Ret tt) ->
  snd (exportEdits pdfDoc page pageIndex items edits) = Ret tt /\
  Forall (fun e => isNotice e = false)
    (fst (exportEdits pdfDoc page pageIndex items edits)).
Proof.
  intros Hrect Htext.
  induction edits as [|[i s] rest [IHr IHl]]; simpl; [split; [reflexivity|constructor]|].
  destruct (Nat.leb_spec (length items) i) as [Hge|Hlt]; [now split|].
  destruct (index_in_range items i Hlt) as [item Hitem]; rewrite Hitem.
  unfold drawEdit, call, ret; simpl; rewrite Hrect, Htext; simpl.
  destruct (exportEdits pdfDoc page pageIndex items rest) as [t r];
    simpl in *; split; [exact IHr | repeat constructor; exact IHl].
Qed.

(** ** Export: the loop over the overlay's pages *)

(** The guard of line 232 passes over exactly the pages out of range. *)
Lemma pageSkipped_inRange pages pageNum :
  pageSkipped pages pageNum = negb (pageInRange pages pageNum).
Proof.
  unfold pageSkipped, pageInRange.
  now rewrite negb_andb, <- Z.ltb_antisym, <- Z.leb_antisym.
Qed.

Lemma pageSkipped_false pages pageNum :
  pageSkipped pages pageNum = false <-> pageInRange pages pageNum = true.
Proof. rewrite pageSkipped_inRange; now destruct (pageInRange pages pageNum). Qed.

Lemma exportPages_skip proxy h pdfDoc pages entries :
  exportPages proxy h pdfDoc pages entries =
  exportPages proxy h pdfDoc pages
    (List.filter (fun e => pageInRange pages (fst e)) entries).
Proof.
  induction entries as [|[pageNum r] rest IH]; [reflexivity|].
  cbn [exportPages List.filter fst].
  rewrite pageSkipped_inRange.
  destruct (pageInRange pages pageNum) eqn:Hrange; cbn [negb exportPages].
  - now rewrite pageSkipped_inRange, Hrange, IH.
  - exact IH.
Qed.

(** One page that is not skipped, taken apart. *)
Lemma exportPages_cons_log proxy h pdfDoc pages pageNum r rest e :
  pageSkipped pages pageNum = false ->
  In e (fst (exportPages proxy h pdfDoc pages ((pageNum, r) :: rest))) ->
  e = PdfLib_getSize (pageNum - 1) \/ e = PdfJs_getPage pageNum \/
  e = PdfJs_getTextContent \/
  (exists p page items,
     proxy = Some p /\ PdfDocProxy.getPage p pageNum = Ret page /\
     PdfPage.getTextContent page = Ret items /\
     In e (fst (exportEdits pdfDoc page (pageNum - 1) items (Heap.derefPage h r)))) \/
  In e (fst (exportPages proxy h pdfDoc pages rest)).
Proof.
  intros Hskip; cbn [exportPages]; rewrite Hskip.
  intros Hin; apply bind_log_in in Hin as [Hin|(sz & _ & Hin)].
  { unfold pageGetSize in Hin; destruct (Js.index pages _); simpl in Hin;
      [destruct Hin as [<-|[]]; auto | destruct Hin]. }
  apply bind_log_in in Hin as [Hin|(page & Hpage & Hin)].
  { unfold proxyGetPage in Hin; destruct proxy; simpl in Hin;
      [destruct Hin as [<-|[]]; auto | destruct Hin]. }
  apply bind_log_in in Hin as [Hin|(items & Hitems & Hin)].
  { simpl in Hin; destruct Hin as [<-|[]]; auto. }
  simpl in Hitems.
  apply bind_log_in in Hin as [Hin|(u & _ & Hin)]; [|auto 6].
  right; right; right; left.
  unfold proxyGetPage in Hpage; destruct proxy as [p|]; [|discriminate].
  exists p, page, items; auto.
Qed.

Lemma exportPages_sound proxy h pdfDoc pages entries e :
  In e (fst (exportPages proxy h pdfDoc pages entries)) ->
  isDrawCall e = true ->
  exists pageNum r i s page item,
    In (pageNum, r) entries /\ pageSkipped pages pageNum = false /\
    In (i, s) (Heap.derefPage h r) /\
    (exists p items,
       proxy = Some p /\ PdfDocProxy.getPage p pageNum = Ret page /\
       PdfPage.getTextContent page = Ret items /\
       Js.index items i = Some item) /\
    drawsEdit e (pageNum - 1) s page item.
Proof.
  intros Hin Hdraw; revert Hin.
  induction entries as [|[pageNum r] rest IH]; [intros []|].
  assert (Hrest :
    In e (fst (exportPages proxy h pdfDoc pages rest)) ->
    exists pageNum0 r0 i s page item,
      In (pageNum0, r0) ((pageNum, r) :: rest) /\
      pageSkipped pages pageNum0 = false /\
      In (i, s) (Heap.derefPage h r0) /\
      (exists p items,
         proxy = Some p /\ PdfDocProxy.getPage p pageNum0 = Ret page /\
         PdfPage.getTextContent page = Ret items /\
         Js.index items i = Some item) /\
      drawsEdit e (pageNum0 - 1) s page item).
  { intros Hin; destruct (IH Hin) as (n0 & r0 & i & s & page & item & Hi & Hrest).
    exists n0, r0, i, s, page, item; split; [now right | exact Hrest]. }
  destruct (pageSkipped pages pageNum) eqn:Hskip.
  { cbn [exportPages]; rewrite Hskip; exact Hrest. }
  intros Hin.
  apply (exportPages_cons_log _ _ _ _ _ _ _ _ Hskip) in Hin
    as [-> | [-> | [-> | [(p & page & items & Hp & Hpage & Hitems & Hin) | Hin]]]];
    try discriminate Hdraw; [|now apply Hrest].
  destruct (exportEdits_sound _ _ _ _ _ _ Hin Hdraw) as (i & s & item & Hi & Hitem & Hd).
  exists pageNum, r, i, s, page, item.
  split; [now left|]. split; [exact Hskip|]. split; [exact Hi|]. split; [|exact Hd].
  exists p, items; auto.
Qed.

Lemma exportPages_no_download proxy h pdfDoc pages entries e :
  In e (fst (exportPages proxy h pdfDoc pages entries)) ->
  is_download e = false.
Proof.
  induction entries as [|[pageNum r] rest IH]; [intros []|].
  destruct (pageSkipped pages pageNum) eqn:Hskip.
  { cbn [exportPages]; rewrite Hskip; exact IH. }
  intros Hin.
  apply (exportPages_cons_log _ _ _ _ _ _ _ _ Hskip) in Hin
    as [-> | [-> | [-> | [(p & page & items & _ & _ & _ & Hin) | Hin]]]];
    try reflexivity; [|now apply IH].
  exact (exportEdits_no_download _ _ _ _ _ _ Hin).
Qed.

Lemma coveredThenDrawn_app pre log post pageIndex s page item :
  coveredThenDrawn log pageIndex s page item ->
  coveredThenDrawn (pre ++ log ++ post) pageIndex s page item.
Proof.
  intros (rect & text & t1 & t2 & -> & Hr & Ht).
  exists rect, text, (pre ++ t1), (t2 ++ post).
  split; [|auto].
  now rewrite <- !app_assoc.
Qed.

Lemma pageGetSize_in_range pages pageNum :
  pageSkipped pages pageNum = false ->
  exists size, pageGetSize pages (pageNum - 1)
               = ([PdfLib_getSize (pageNum - 1)], Ret size).
Proof.
  unfold pageSkipped, pageGetSize, Js.index; intros Hskip.
  apply orb_false_iff in Hskip as [Hlo Hhi].
  apply Z.ltb_ge in Hlo; apply Z.leb_gt in Hhi.
  destruct (pages !! Z.to_nat (pageNum - 1)) as [size|] eqn:Hsz; [now exists size|].
  apply lookup_ge_None_1 in Hsz; lia.
Qed.

Lemma exportPages_complete proxy h pdfDoc pages entries :
  snd (exportPages proxy h pdfDoc pages entries) = Ret tt ->
  forall pageNum r p page items i s item,
    In (pageNum, r) entries -> pageSkipped pages pageNum = false ->
    proxy = Some p -> PdfDocProxy.getPage p pageNum = Ret page ->
    PdfPage.getTextContent page = Ret items ->
    In (i, s) (Heap.derefPage h r) -> Js.index items i = Some item ->
    coveredThenDrawn (fst (exportPages proxy h pdfDoc pages entries))
      (pageNum - 1) s page item.
Proof.
  induction entries as [|[pageNum0 r0] rest IH]; [intros _ ? ? ? ? ? ? ? ? []|].
  intros Hret pageNum r p page items i s item Hin Hskip Hp Hpage Hitems Hi Hitem.
  cbn [exportPages] in *.
  destruct (pageSkipped pages pageNum0) eqn:Hskip0.
  - destruct Hin as [Heq|Hin]; [injection Heq as -> ->; congruence|].
    exact (IH Hret _ _ _ _ _ _ _ _ Hin Hskip Hp Hpage Hitems Hi Hitem).
  - apply bind_ret_inv in Hret as (sz & _ & Hret & ->).
    apply bind_ret_inv in Hret as (page0 & Hpage0 & Hret & ->).
    apply bind_ret_inv in Hret as (items0 & Hitems0 & Hret & ->).
    apply bind_ret_inv in Hret as ([] & Hedits & Hret & ->).
    destruct Hin as [Heq|Hin].
    + injection Heq as -> ->.
      subst proxy; simpl in Hpage0, Hitems0.
      assert (page0 = page) as -> by congruence.
      assert (items0 = items) as -> by congruence.
      rewrite !app_assoc.
      rewrite <- (app_assoc _ (fst (exportEdits _ _ _ _ _))).
      apply coveredThenDrawn_app.
      exact (exportEdits_complete _ _ _ _ _ Hedits _ _ _ Hi Hitem).
    + rewrite !app_assoc.
      rewrite <- (app_nil_r (fst (exportPages _ _ _ _ rest))).
      apply coveredThenDrawn_app.
      exact (IH Hret _ _ _ _ _ _ _ _ Hin Hskip Hp Hpage Hitems Hi Hitem).
Qed.

Lemma exportPages_cooperate p h pdfDoc entries :
  librariesCooperate pdfDoc p ->
  snd (exportPages (Some p) h pdfDoc (PDFDocument.getPages pdfDoc) entries)
    = Ret tt /\
  Forall (fun e => isNotice e = false)
    (fst (exportPages (Some p) h pdfDoc (PDFDocument.getPages pdfDoc) entries)).
Proof.
  intros (_ & Hrect & Htext & _ & Hpages).
  induction entries as [|[pageNum r] rest [IHr IHl]];
    [split; [reflexivity | constructor]|].
  cbn [exportPages].
  destruct (pageSkipped _ pageNum) eqn:Hskip; [now split|].
  destruct (pageGetSize_in_range _ _ Hskip) as [sz ->].
  destruct (Hpages _ (proj1 (pageSkipped_false _ _) Hskip))
    as (page & items & Hpage & Hitems).
  unfold proxyGetPage, call; rewrite Hpage; simpl; rewrite Hitems; simpl.
  destruct (exportEdits_cooperate pdfDoc page (pageNum - 1) items
              (Heap.derefPage h r) Hrect Htext) as [Her Hel].
  destruct (exportEdits pdfDoc page (pageNum - 1) items _) as [te re];
    simpl in *; subst re; simpl.
  destruct (exportPages (Some p) h pdfDoc _ rest) as [tr rr];
    simpl in *; subst rr.
  split; [reflexivity|].
  repeat constructor. apply Forall_app; split; assumption.
Qed.

(** ** Export: the whole [try] block *)

Lemma exportBody_draw_in lib buf st e :
  In e (fst (exportBody lib buf st)) -> isDrawCall e = true ->
  exists pdfDoc,
    PDFLib.load lib buf = Ret pdfDoc /\
    In e (fst (exportPages (pdfDocProxy st) (heap st) pdfDoc
                 (PDFDocument.getPages pdfDoc) (overlayOf st))).
Proof.
  unfold exportBody; intros Hin Hdraw.
  apply bind_log_in in Hin as [[<-|[]]|(pdfDoc & Hload & Hin)];
    [discriminate Hdraw|].
  exists pdfDoc; split; [exact Hload|].
  apply bind_log_in in Hin as [[<-|[]]|(u & _ & Hin)]; [discriminate Hdraw|].
  apply bind_log_in in Hin as [[<-|[]]|(pages & Hpages & Hin)];
    [discriminate Hdraw|].
  simpl in Hpages; injection Hpages as <-.
  apply bind_log_in in Hin as [Hin|(u' & _ & Hin)]; [exact Hin|].
  apply bind_log_in in Hin as [[<-|[]]|(bytes & _ & [<-|[]])];
    discriminate Hdraw.
Qed.

Lemma exportBody_download lib buf st e :
  In e (fst (exportBody lib buf st)) -> is_download e = true ->
  exists pdfDoc bytes,
    PDFLib.load lib buf = Ret pdfDoc /\
    snd (exportPages (pdfDocProxy st) (heap st) pdfDoc
           (PDFDocument.getPages pdfDoc) (overlayOf st)) = Ret tt /\
    exportBody lib buf st =
      ([PdfLib_load buf; PdfLib_embedFont Helvetica; PdfLib_getPages]
         ++ fst (exportPages (pdfDocProxy st) (heap st) pdfDoc
                   (PDFDocument.getPages pdfDoc) (overlayOf st))
         ++ [PdfLib_save; Download bytes exportName],
       Ret tt).
Proof.
  unfold exportBody, call, emit, JsMap.entries; intros Hin Hdl.
  destruct (PDFLib.load lib buf) as [pdfDoc|]; simpl in *;
    [|destruct Hin as [<-|[]]; discriminate Hdl].
  destruct (PDFDocument.embedFont pdfDoc Helvetica); simpl in *;
    [|destruct Hin as [<-|[<-|[]]]; discriminate Hdl].
  pose proof (exportPages_no_download (pdfDocProxy st) (heap st) pdfDoc
                (PDFDocument.getPages pdfDoc) (overlayOf st)) as Hnd.
  destruct (exportPages _ _ pdfDoc _ _) as [t [[]|]] eqn:Hrun; simpl in *.
  - destruct (PDFDocument.save pdfDoc) as [bytes|]; simpl in *.
    + exists pdfDoc, bytes; rewrite Hrun; repeat split.
    + destruct Hin as [<-|[<-|[<-|Hin]]]; try discriminate Hdl.
      apply in_app_or in Hin as [Hin|[<-|[]]]; [|discriminate Hdl].
      rewrite (Hnd e Hin) in Hdl; discriminate Hdl.
  - destruct Hin as [<-|[<-|[<-|Hin]]]; try discriminate Hdl.
    rewrite (Hnd e Hin) in Hdl; discriminate Hdl.
Qed.

Lemma exportBody_cooperate lib buf st pdfDoc proxy :
  PDFLib.load lib buf = Ret pdfDoc -> pdfDocProxy st = Some proxy ->
  librariesCooperate pdfDoc proxy ->
  exists bytes,
    exportBody lib buf st =
      ([PdfLib_load buf; PdfLib_embedFont Helvetica; PdfLib_getPages]
         ++ fst (exportPages (pdfDocProxy st) (heap st) pdfDoc
                   (PDFDocument.getPages pdfDoc) (overlayOf st))
         ++ [PdfLib_save; Download bytes exportName],
       Ret tt) /\
    snd (exportPages (pdfDocProxy st) (heap st) pdfDoc
           (PDFDocument.getPages pdfDoc) (overlayOf st)) = Ret tt /\
    Forall (fun e => isNotice e = false) (fst (exportBody lib buf st)).
Proof.
  intros Hload Hproxy Hcoop.
  pose proof Hcoop as (Hfont & _ & _ & [bytes Hsave] & _).
  exists bytes.
  destruct (exportPages_cooperate proxy (heap st) pdfDoc (overlayOf st) Hcoop)
    as [Hr Hl].
  unfold exportBody, call, emit, JsMap.entries.
  rewrite Hload; simpl; rewrite Hfont; simpl; rewrite Hproxy.
  destruct (exportPages _ _ pdfDoc _ _) as [t r]; simpl in *; subst r; simpl.
  rewrite Hsave; simpl.
  split; [reflexivity|]. split; [reflexivity|].
  repeat constructor. apply Forall_app; split; [exact Hl | repeat constructor].
Qed.

Lemma downloadPdf_log env st buf lib :
  pdfFileBuffer st = Some buf -> Env.PDFLib env = Some lib ->
  JsMap.size (overlayOf st) <> 0%nat ->
  snd (downloadPdf env st) =
    fst (exportBody lib (derefBuffer st buf) (set_isLoading true st)) ++
    match snd (exportBody lib (derefBuffer st buf) (set_isLoading true st)) with
    | Ret _ => []
    | Exn => [ConsoleError "Error saving PDF:"; Alert saveFailedNotice]
    end.
Proof.
  intros Hbuf Hlib Hsize; unfold downloadPdf; rewrite Hbuf, Hlib.
  apply Nat.eqb_neq in Hsize; rewrite Hsize.
  now destruct (exportBody lib _ _) as [t r].
Qed.

(** A precondition notice is all the log holds unless the export ran. *)
Lemma downloadPdf_ran env st e :
  In e (snd (downloadPdf env st)) -> isNotice e = false ->
  exists buf lib,
    pdfFileBuffer st = Some buf /\ Env.PDFLib env = Some lib /\
    JsMap.size (overlayOf st) <> 0%nat /\
    In e (fst (exportBody lib (derefBuffer st buf) (set_isLoading true st))).
Proof.
  intros Hin Hn.
  destruct (pdfFileBuffer st) as [buf|] eqn:Hbuf;
    [|unfold downloadPdf in Hin; rewrite Hbuf in Hin;
      destruct Hin as [<-|[]]; discriminate Hn].
  destruct (Env.PDFLib env) as [lib|] eqn:Hlib;
    [|unfold downloadPdf in Hin; rewrite Hbuf, Hlib in Hin;
      destruct Hin as [<-|[]]; discriminate Hn].
  destruct (Nat.eq_dec (JsMap.size (overlayOf st)) 0%nat) as [Hz|Hnz].
  { unfold downloadPdf in Hin; rewrite Hbuf, Hlib, Hz in Hin.
    destruct Hin as [<-|[]]; discriminate Hn. }
  exists buf, lib; repeat split; try assumption.
  rewrite (downloadPdf_log env st buf lib Hbuf Hlib Hnz) in Hin.
  apply in_app_or in Hin as [Hin|Hin]; [exact Hin|].
  destruct (snd (exportBody lib _ _)); [destruct Hin|].
  destruct Hin as [<-|[<-|[]]]; discriminate Hn.
Qed.

(** ** Export: what is drawn, and where *)

(** Whatever the libraries answer, a draw call in the log of an export
    is the cover or the text of a recorded edit whose page is in range of
    the output document and whose fragment is there in the freshly
    extracted content, and it is drawn at that fragment's place. *)
Lemma downloadPdf_draws_sound env st e :
  In e (snd (downloadPdf env st)) -> isDrawCall e = true ->
  exists lib buf pdfDoc pageNum i s page item,
    Env.PDFLib env = Some lib /\ pdfFileBuffer st = Some buf /\
    PDFLib.load lib (derefBuffer st buf) = Ret pdfDoc /\
    pageSkipped (PDFDocument.getPages pdfDoc) pageNum = false /\
    recorded st pageNum i s /\ reextracted st pageNum i page item /\
    drawsEdit e (pageNum - 1) s page item.
Proof.
  intros Hin Hdraw.
  assert (Hn : isNotice e = false) by (destruct e; try discriminate Hdraw; reflexivity).
  destruct (downloadPdf_ran env st e Hin Hn) as (buf & lib & Hbuf & Hlib & _ & Hbody).
  destruct (exportBody_draw_in lib _ _ e Hbody Hdraw) as (pdfDoc & Hload & Hpages).
  destruct (exportPages_sound _ _ _ _ _ _ Hpages Hdraw)
    as (pageNum & r & i & s & page & item & Hr & Hskip & Hi & (p & items & Hre) & Hd).
  exists lib, buf, pdfDoc, pageNum, i, s, page, item.
  repeat (split; [assumption|]).
  split; [exists r; split; assumption|].
  split; [exists p, items; exact Hre | exact Hd].
Qed.

(** An export that got as far as offering the download has covered and
    redrawn every recorded edit that is in range. *)
Lemma downloadPdf_draws_complete env st lib buf pdfDoc e :
  Env.PDFLib env = Some lib -> pdfFileBuffer st = Some buf ->
  PDFLib.load lib (derefBuffer st buf) = Ret pdfDoc ->
  In e (snd (downloadPdf env st)) -> is_download e = true ->
  forall pageNum i s page item,
    recorded st pageNum i s -> reextracted st pageNum i page item ->
    pageSkipped (PDFDocument.getPages pdfDoc) pageNum = false ->
    coveredThenDrawn (snd (downloadPdf env st)) (pageNum - 1) s page item.
Proof.
  intros Hlib Hbuf Hload Hin Hdl pageNum i s page item
         (r & Hr & Hi) (p & items & Hp & Hpage & Hitems & Hitem) Hskip.
  assert (Hn : isNotice e = false) by (destruct e; try discriminate Hdl; reflexivity).
  destruct (downloadPdf_ran env st e Hin Hn) as (buf' & lib' & Hbuf' & Hlib' & Hnz & Hbody).
  assert (buf' = buf) as -> by congruence.
  assert (lib' = lib) as -> by congruence.
  destruct (exportBody_download lib _ _ e Hbody Hdl)
    as (pdfDoc' & bytes & Hload' & Hret & Hrun).
  assert (pdfDoc' = pdfDoc) as -> by congruence.
  rewrite (downloadPdf_log env st buf lib Hbuf Hlib Hnz), Hrun; cbn [fst snd].
  rewrite app_nil_r.
  apply coveredThenDrawn_app.
  exact (exportPages_complete _ _ _ _ _ Hret _ _ _ _ _ _ _ _ Hr Hskip Hp Hpage Hitems Hi Hitem).
Qed.

(** C1.  Every cover rectangle and every replacement text the export
    draws belongs to a recorded edit and is drawn at [x = transform[4]],
    [y = height - transform[5]] of the fragment the edit refers to in the
    freshly extracted content, [height] being the height of the page's
    viewport at scale 1.  And when the export gets as far as offering the
    download, every recorded edit that was not skipped has its cover
    and, right after it, its text in the log, both at that position. *)
Theorem C1_export_draws_at_fragment_position (env : Env.t) (st : AppState) :
  (forall e,
     In e (snd (downloadPdf env st)) -> isDrawCall e = true ->
     exists pageNum i s page item,
       recorded st pageNum i s /\ reextracted st pageNum i page item /\
       drawsEdit e (pageNum - 1) s page item) /\
  (forall lib buf pdfDoc bytes pageNum i s page item,
     Env.PDFLib env = Some lib -> pdfFileBuffer st = Some buf ->
     PDFLib.load lib (derefBuffer st buf) = Ret pdfDoc ->
     In (Download bytes exportName) (snd (downloadPdf env st)) ->
     recorded st pageNum i s -> reextracted st pageNum i page item ->
     pageInRange (PDFDocument.getPages pdfDoc) pageNum = true ->
     coveredThenDrawn (snd (downloadPdf env st)) (pageNum - 1) s page item).
Proof.
  split.
  - intros e Hin Hdraw.
    destruct (downloadPdf_draws_sound env st e Hin Hdraw)
      as (_ & _ & _ & pageNum & i & s & page & item & _ & _ & _ & _ & H).
    exists pageNum, i, s, page, item; exact H.
  - intros lib buf pdfDoc bytes pageNum i s page item Hlib Hbuf Hload Hdl
           Hrec Hre Hrange.
    apply pageSkipped_false in Hrange.
    exact (downloadPdf_draws_complete env st lib buf pdfDoc _ Hlib Hbuf Hload
             Hdl eq_refl pageNum i s page item Hrec Hre Hrange).
Qed.

Lemma C1_export_draws_at_fragment_position_witness :
  exists rect text t1 t2,
    snd (downloadPdf (exEnv exOne) exEdited) =
      t1 ++ [PdfLib_drawRectangle 0 rect; PdfLib_drawText 0 "World" text] ++ t2 /\
    RectOptions.x rect = Some 50%float /\ RectOptions.y rect = 92%float /\
    TextOptions.x text = Some 50%float /\ TextOptions.y text = 92%float.
Proof.
  destruct (C1_export_draws_at_fragment_position (exEnv exOne) exEdited) as [_ H].
  destruct (H (exLib 1) 0%nat (exPdfDoc 1) [] 1 0%nat "World" (exPage [exItem]) exItem)
    as (rect & text & t1 & t2 & Hlog & [Hx Hy] & [Hx' Hy']).
  - reflexivity.
  - reflexivity.
  - reflexivity.
  - vm_compute; repeat (try (left; reflexivity); right).
  - exists 0%nat; split; vm_compute; left; reflexivity.
  - exists (exProxy exOne), [exItem]; repeat split.
  - reflexivity.
  - exists rect, text, t1, t2.
    exact (conj Hlog (conj Hx (conj Hy (conj Hx' Hy')))).
Defined.

(** The worked example of the specification, in full: one page of height
    792, one fragment at [[1,0,0,1,50,700]], 40 wide and 12 high, edited
    and exported. *)
Example export_of_the_edited_example :
  snd (downloadPdf (exEnv exOne) exEdited) =
    [PdfLib_load (Attached []); PdfLib_embedFont Helvetica; PdfLib_getPages;
     PdfLib_getSize 0; PdfJs_getPage 1; PdfJs_getTextContent;
     PdfJs_getViewport 1;
     PdfLib_drawRectangle 0
       (RectOptions.mk (Some 50%float) 92 40 12 white);
     PdfLib_drawText 0 "World"
       (TextOptions.mk (Some 50%float) 92 Helvetica (12 * textScale) black);
     PdfLib_save; Download [] exportName].
Proof. reflexivity. Qed.

(** ** Export: edits that no longer fit *)

Lemma exTwo_cooperates : librariesCooperate (exPdfDoc 2) (exProxy exTwo).
Proof.
  split; [reflexivity|]. split; [intros; reflexivity|].
  split; [intros; reflexivity|]. split; [exists []; reflexivity|].
  intros pageNum Hrange; unfold pageInRange in Hrange.
  apply andb_true_iff in Hrange as [Hlo Hhi].
  apply Z.leb_le in Hlo; apply Z.ltb_lt in Hhi.
  change (Z.of_nat (length (PDFDocument.getPages (exPdfDoc 2)))) with 2 in Hhi.
  assert (Hn : pageNum = 1 \/ pageNum = 2) by lia.
  destruct Hn as [-> | ->]; eexists _, _; split; reflexivity.
Qed.

(** C4.  An overlay entry whose page index is out of range of the output
    document's pages, and an edit whose fragment index is at or past the
    end of the page's freshly extracted fragments, are passed over: the
    run of either loop, its log and its outcome, is the run over the
    entries that are in range, whatever the libraries answer.  And when
    the libraries answer every call, an export over any non-empty overlay
    runs to the end: it logs no notice, saves and offers the download,
    and has covered and redrawn every recorded edit that is in range. *)
Theorem C4_stale_edits_are_skipped (env : Env.t) (st : AppState) :
  (forall proxy h pdfDoc pages entries,
     exportPages proxy h pdfDoc pages entries =
     exportPages proxy h pdfDoc pages
       (List.filter (fun e => pageInRange pages (fst e)) entries)) /\
  (forall pdfDoc page pageIndex items edits,
     exportEdits pdfDoc page pageIndex items edits =
     exportEdits pdfDoc page pageIndex items
       (List.filter (fun e => itemInRange items (fst e)) edits)) /\
  (forall lib buf pdfDoc proxy,
     Env.PDFLib env = Some lib -> pdfFileBuffer st = Some buf ->
     PDFLib.load lib (derefBuffer st buf) = Ret pdfDoc -> pdfDocProxy st = Some proxy ->
     librariesCooperate pdfDoc proxy ->
     JsMap.size (overlayOf st) <> 0%nat ->
     (exists t bytes,
        snd (downloadPdf env st) = t ++ [PdfLib_save; Download bytes exportName]) /\
     Forall (fun e => isNotice e = false) (snd (downloadPdf env st)) /\
     (forall pageNum i s page item,
        recorded st pageNum i s -> reextracted st pageNum i page item ->
        pageInRange (PDFDocument.getPages pdfDoc) pageNum = true ->
        coveredThenDrawn (snd (downloadPdf env st)) (pageNum - 1) s page item)).
Proof.
  split; [intros; apply exportPages_skip|].
  split; [intros; apply exportEdits_skip|].
  intros lib buf pdfDoc proxy Hlib Hbuf Hload Hproxy Hcoop Hnz.
  destruct (exportBody_cooperate lib _ (set_isLoading true st) pdfDoc proxy
              Hload Hproxy Hcoop) as (bytes & Hrun & _ & Hquiet).
  pose proof (downloadPdf_log env st buf lib Hbuf Hlib Hnz) as Hlog.
  rewrite Hrun in Hlog, Hquiet; cbn [fst snd] in Hlog, Hquiet.
  rewrite app_nil_r in Hlog.
  split; [|split].
  - eexists _, bytes; rewrite Hlog, !app_assoc; reflexivity.
  - now rewrite Hlog.
  - intros pageNum i s page item Hrec Hre Hskip.
    apply pageSkipped_false in Hskip.
    assert (Hdl : In (Download bytes exportName) (snd (downloadPdf env st))).
    { rewrite Hlog; apply in_or_app; right; apply in_or_app; right.
      right; now left. }
    exact (downloadPdf_draws_complete env st lib buf pdfDoc _ Hlib Hbuf Hload
             Hdl eq_refl pageNum i s page item Hrec Hre Hskip).
Qed.

Lemma C4_stale_edits_are_skipped_witness :
  recorded exStale 1 5 "stale" /\
  (exists t bytes,
     snd (downloadPdf (exEnv exTwo) exStale)
       = t ++ [PdfLib_save; Download bytes exportName]) /\
  Forall (fun e => isNotice e = false) (snd (downloadPdf (exEnv exTwo) exStale)) /\
  coveredThenDrawn (snd (downloadPdf (exEnv exTwo) exStale)) 0 "ok"
    (exPage [exItemAt 50 700 "a"; exItemAt 50 680 "b"; exItemAt 50 660 "c"])
    (exItemAt 50 700 "a").
Proof.
  split; [exists 0%nat; split; vm_compute; auto|].
  destruct (C4_stale_edits_are_skipped (exEnv exTwo) exStale) as (_ & _ & H).
  destruct (H (exLib 2) 0%nat (exPdfDoc 2) (exProxy exTwo)) as (Hend & Hquiet & Hdrawn);
    [reflexivity | reflexivity | reflexivity | reflexivity
    | exact exTwo_cooperates | vm_compute; discriminate |].
  split; [exact Hend|]. split; [exact Hquiet|].
  apply (Hdrawn 1 0%nat "ok").
  - exists 0%nat; split; vm_compute; auto.
  - eexists (exProxy exTwo), _; repeat split.
  - reflexivity.
Defined.

(** The example of the specification, in full: page 1 has three
    fragments, the overlay holds an edit of fragment 0 and one of
    fragment 5; the export draws the first, passes over the second, and
    completes. *)
Example export_with_a_stale_edit :
  snd (downloadPdf (exEnv exTwo) exStale) =
    [PdfLib_load (Attached []); PdfLib_embedFont Helvetica; PdfLib_getPages;
     PdfLib_getSize 0; PdfJs_getPage 1; PdfJs_getTextContent;
     PdfJs_getViewport 1;
     PdfLib_drawRectangle 0
       (RectOptions.mk (Some 50%float) 92 40 12 white);
     PdfLib_drawText 0 "ok"
       (TextOptions.mk (Some 50%float) 92 Helvetica (12 * textScale) black);
     PdfLib_save; Download [] exportName].
Proof. reflexivity. Qed.

(** * Further properties *)

(** ** What each action leaves alone *)

Lemma sameView_refl st : sameView st st.
Proof. repeat split. Qed.

Lemma updateText_frame i s st :
  currentPage (updateText i s st) = currentPage st /\
  totalPages (updateText i s st) = totalPages st /\
  zoom (updateText i s st) = zoom st /\
  textItems (updateText i s st) = textItems st /\
  pdfDocProxy (updateText i s st) = pdfDocProxy st /\
  pdfFileBuffer (updateText i s st) = pdfFileBuffer st /\
  isLoading (updateText i s st) = isLoading st.
Proof.
  unfold updateText.
  destruct (JsMap.get _ _); simpl; repeat split.
Qed.

(** An export changes nothing but the busy flag. *)
Lemma downloadPdf_state env st :
  fst (downloadPdf env st) = st \/
  fst (downloadPdf env st) = set_isLoading false st.
Proof.
  unfold downloadPdf.
  destruct (pdfFileBuffer st) as [buf|]; [|now left].
  destruct (Env.PDFLib env) as [lib|]; [|now left].
  destruct (_ =? _)%nat; [now left|].
  destruct (exportBody lib _ _) as [t r]; now right.
Qed.

(** Only a file selection touches the store of buffers. *)
Lemma renderPage_buffers env pageNum st :
  buffers (fst (renderPage env pageNum st)) = buffers st.
Proof. render_cases env pageNum st; reflexivity. Qed.

Lemma updateText_buffers i s st : buffers (updateText i s st) = buffers st.
Proof. unfold updateText; destruct (JsMap.get _ _); reflexivity. Qed.

Lemma downloadPdf_buffers env st :
  buffers (fst (downloadPdf env st)) = buffers st.
Proof. destruct (downloadPdf_state env st) as [-> | ->]; reflexivity. Qed.

Lemma downloadPdf_sameView env st : sameView st (fst (downloadPdf env st)).
Proof. destruct (downloadPdf_state env st) as [-> | ->]; repeat split. Qed.

(** A render either returns at a guard, or moves to a page of the
    document. *)
Lemma renderPage_page env pageNum st :
  fst (renderPage env pageNum st) = st \/
  (currentPage (fst (renderPage env pageNum st)) = pageNum /\
   1 <= pageNum <= totalPages st).
Proof.
  render_cases env pageNum st; try (now left); right; (split; [reflexivity|]);
    apply orb_false_iff in Heqb as [H1 H2];
    apply Z.ltb_ge in H1; apply Z.ltb_ge in H2; lia.
Qed.

(** A file selection leaves the view as it was, or shows a new document
    from its first page with no edits, at the zoom factor it found. *)
Lemma onFileSelected_outcomes files env st :
  sameView st (fst (onFileSelected files env st)) \/
  (overlayOf (fst (onFileSelected files env st)) = JsMap.empty /\
   currentPage (fst (onFileSelected files env st)) = 1 /\
   zoom (fst (onFileSelected files env st)) = zoom st).
Proof.
  unfold onFileSelected.
  destruct files as [[|file others]|]; try (left; apply sameView_refl).
  destruct (negb _); [left; apply sameView_refl|].
  destruct (Env.loadPdfLibraries env); [|left; repeat split].
  destruct (File.arrayBuffer file) as [fileBuffer|]; [|left; repeat split].
  cbv zeta; set (b := length (buffers (set_isLoading true st))).
  set (st2 := set_pdfFileBuffer _ _).
  assert (Hb : derefBuffer st2 b = Attached fileBuffer)
    by apply (derefBuffer_new (set_isLoading true st)).
  destruct (Env.getDocument env fileBuffer) as [pdf|] eqn:Hdoc.
  - right.
    pose proof (loadPdf_resets env b fileBuffer pdf st2 Hb Hdoc) as (Ho & Hc & _ & Hr).
    assert (Hz : zoom (fst (loadPdf env b st2)) = zoom st).
    { unfold loadPdf; rewrite Hb, Hdoc; simpl.
      match goal with
      | |- context [renderPage env 1 ?s] =>
          pose proof (renderPage_zoom env 1 s) as Hz;
          destruct (renderPage env 1 s) as [st5 t]
      end.
      exact Hz. }
    destruct (loadPdf env b st2) as [st3 [t r]]; simpl in *.
    subst r; simpl; auto.
  - left; unfold loadPdf; rewrite Hb, Hdoc; repeat split.
Qed.

(** ** More [Map] facts *)

Section JsMapMore.
Context {K V : Type} `{EqDecision K}.
Implicit Types (k : K) (v : V) (m : JsMap.t K V).

Lemma get_none_keys k m : JsMap.get k m = None -> ~ In k (map fst m).
Proof.
  induction m as [|[k' v'] m IH]; simpl; [tauto|].
  destruct (decide (k = k')) as [->|Hne]; [discriminate|].
  intros Hget [Heq|Hin]; [congruence | now apply IH].
Qed.

Lemma set_same k v m : JsMap.get k m = Some v -> JsMap.set k v m = m.
Proof.
  induction m as [|[k' v'] m IH]; simpl; [discriminate|].
  destruct (decide (k = k')) as [->|Hne]; [congruence|].
  intros Hget; now rewrite IH.
Qed.

Lemma get_some_keys k v m : JsMap.get k m = Some v -> In k (map fst m).
Proof. intros Hget; apply (in_map fst _ (k, v)), get_in, Hget. Qed.

End JsMapMore.

Lemma NoDup_snoc {A : Type} (l : list A) (x : A) :
  List.NoDup l -> ~ In x l -> List.NoDup (l ++ [x]).
Proof.
  induction l as [|y l IH]; simpl; intros Hnd Hx.
  - constructor; [simpl; tauto | constructor].
  - apply List.NoDup_cons_iff in Hnd as [Hy Hnd].
    apply List.NoDup_cons_iff; split.
    + intros Hin; apply in_app_or in Hin as [Hin|[<-|[]]]; tauto.
    + apply IH; tauto.
Qed.

(** ** The session invariant *)

Lemma sessionInv_initialState : sessionInv initialState.
Proof.
  split; [apply wf_initialState|].
  split; [now left|].
  split; [intros p r []|].
  split; [constructor | vm_compute; tauto].
Qed.

Lemma sessionInv_sameView st st' :
  sameView st st' -> wf st' -> sessionInv st -> sessionInv st'.
Proof.
  intros (Hc & Ht & Hz & He & Hh & _) Hwf' (_ & Hp & Hed & Hd & Hg).
  unfold sessionInv, pageInDocument, editsInDocument, subMapsDistinct, overlayOf.
  rewrite Hc, Ht, Hz, He, Hh; auto.
Qed.

Lemma sessionInv_set_zoom z st :
  In z zoomGrid -> sessionInv st -> sessionInv (set_zoom z st).
Proof.
  intros Hz (Hwf & Hp & Hed & Hd & _).
  exact (conj Hwf (conj Hp (conj Hed (conj Hd Hz)))).
Qed.

Lemma sessionInv_renderPage env pageNum st :
  sessionInv st -> sessionInv (fst (renderPage env pageNum st)).
Proof.
  intros Hinv.
  pose proof (renderPage_frame env pageNum st) as (Hz & He & Hh & Ht & _).
  destruct (renderPage_page env pageNum st) as [Hsame|[Hc Hrange]];
    [now rewrite Hsame|].
  destruct Hinv as (Hwf & _ & Hed & Hd & Hg).
  split; [now apply wf_renderPage|].
  unfold pageInDocument, editsInDocument, subMapsDistinct, overlayOf.
  rewrite Hc, Ht, Hz, He, Hh; auto.
Qed.

Lemma updateText_overlayOf st i s :
  wf st ->
  exists r : ref,
    overlayOf (updateText i s st) = JsMap.set (currentPage st) r (overlayOf st) /\
    (JsMap.get (currentPage st) (overlayOf st) = Some r \/
     (JsMap.get (currentPage st) (overlayOf st) = None /\
      r = length (Heap.pageMaps (heap st)))).
Proof.
  intros Hwf.
  destruct (updateText_reads st i s Hwf) as (r & Hc & _ & _ & Hn & _).
  exists r; auto.
Qed.

Lemma sessionInv_updateText i s st :
  sessionInv st -> sessionInv (updateText i s st).
Proof.
  intros (Hwf & Hp & Hed & Hd & Hg).
  destruct (updateText_frame i s st) as (Hc & Ht & Hz & _).
  destruct (updateText_overlayOf st i s Hwf) as (r & Ho & Hcase).
  split; [now apply wf_updateText|].
  unfold pageInDocument, editsInDocument, subMapsDistinct.
  rewrite Hc, Ht, Hz, Ho.
  split; [exact Hp|]. split; [|split; [|exact Hg]].
  - intros p' r' Hin; apply in_set in Hin as [[-> _]|Hin]; [exact Hp | eauto].
  - destruct Hcase as [Hsome|[Hnone ->]].
    + now rewrite (set_same _ _ _ Hsome).
    + rewrite (set_absent _ _ _ (get_none_keys _ _ Hnone)), map_app; simpl.
      apply NoDup_snoc; [exact Hd|].
      intros Hin; apply in_map_iff in Hin as ([p' r'] & Heq & Hin); simpl in Heq.
      subst r'.
      pose proof (wf_lookup_overlay st Hwf) as Hm.
      destruct Hwf as [_ Hclosed].
      destruct (Hclosed _ _ Hm) as [_ Hlive].
      specialize (Hlive _ _ Hin); unfold Heap.livePage in Hlive; lia.
Qed.

Lemma sessionInv_onFileSelected files env st :
  sessionInv st -> sessionInv (fst (onFileSelected files env st)).
Proof.
  intros Hinv.
  assert (Hwf' : wf (fst (onFileSelected files env st)))
    by (apply wf_onFileSelected, Hinv).
  destruct (onFileSelected_outcomes files env st) as [Hsame|(Ho & Hc & Hz)];
    [now apply (sessionInv_sameView st)|].
  split; [exact Hwf'|].
  unfold pageInDocument, editsInDocument, subMapsDistinct.
  rewrite Ho, Hc, Hz.
  split; [now left|]. split; [intros p r []|].
  split; [constructor | apply Hinv].
Qed.

Lemma sessionInv_step env a st : sessionInv st -> sessionInv (fst (step env a st)).
Proof.
  intros Hinv; destruct a; simpl.
  - now apply sessionInv_onFileSelected.
  - now apply sessionInv_renderPage.
  - now apply sessionInv_updateText.
  - unfold goToPrevPage; destruct (_ <? _); [now apply sessionInv_renderPage | exact Hinv].
  - unfold goToNextPage; destruct (_ <? _); [now apply sessionInv_renderPage | exact Hinv].
  - unfold zoomIn; apply sessionInv_renderPage, sessionInv_set_zoom; [|exact Hinv].
    apply zoomIn_update_grid, Hinv.
  - unfold zoomOut; apply sessionInv_renderPage, sessionInv_set_zoom; [|exact Hinv].
    apply zoomOut_update_grid, Hinv.
  - apply (sessionInv_sameView st); [apply downloadPdf_sameView | | exact Hinv].
    apply wf_downloadPdf, Hinv.
Qed.

Lemma sessionInv_session script : forall st,
  sessionInv st -> sessionInv (session script st).
Proof.
  induction script as [|[env a] rest IH]; intros st Hinv; simpl; [exact Hinv|].
  apply IH, sessionInv_step, Hinv.
Qed.

Lemma sessionInv_reachable script : sessionInv (session script initialState).
Proof. apply sessionInv_session, sessionInv_initialState. Qed.

(** ** Pages, edits and zoom along a session *)

(** X4.  In every state a session reaches from the initial one, whatever
    the actions and whatever the libraries answer, the current page is 1
    or a page of the loaded document: navigation never leaves the
    document. *)
Theorem currentPage_stays_in_document (script : list (Env.t * Action)) :
  let st := session script initialState in
  1 <= currentPage st /\ (currentPage st = 1 \/ currentPage st <= totalPages st).
Proof.
  destruct (sessionInv_reachable script) as (_ & Hp & _).
  destruct Hp as [Hp|Hp]; simpl; rewrite ?Hp; split; (lia || auto); right; lia.
Qed.

(** X5.  Every page number under which a session has recorded an edit is
    at least 1 and is page 1 or a page of the loaded document: the lower
    half of the export's page guard never fires on a recorded edit. *)
Theorem recorded_edits_are_on_document_pages (script : list (Env.t * Action))
    (p : Z) (i : nat) (s : string) :
  recorded (session script initialState) p i s ->
  1 <= p /\ (p = 1 \/ p <= totalPages (session script initialState)) /\
  (p - 1 <? 0) = false.
Proof.
  intros (r & Hr & _).
  destruct (sessionInv_reachable script) as (_ & _ & Hed & _).
  assert (H1 : 1 <= p) by (destruct (Hed p r Hr); lia).
  split; [exact H1|]. split; [destruct (Hed p r Hr); [now left | right; lia]|].
  apply Z.ltb_ge; lia.
Qed.

Lemma recorded_edits_are_on_document_pages_witness :
  1 <= 2 /\
  (2 = 1 \/
   2 <= totalPages
          (session [(exEnv exTwo, OnFileSelected (Some [exFile]));
                    (exEnv exTwo, GoToNextPage);
                    (exEnv exTwo, UpdateText 0 "D")] initialState)) /\
  (2 - 1 <? 0) = false.
Proof.
  apply (recorded_edits_are_on_document_pages
           [(exEnv exTwo, OnFileSelected (Some [exFile]));
            (exEnv exTwo, GoToNextPage);
            (exEnv exTwo, UpdateText 0 "D")] 2 0 "D").
  exists 0%nat; split; vm_compute; auto.
Defined.

(** X6.  In every state a session reaches from the initial one, whatever
    actions are interleaved, the zoom factor lies between the minimum and
    the maximum, and the read-out [roundedZoom] is exactly a hundred times
    the factor: one of 50, 75, ..., 300, with nothing lost in rounding. *)
Theorem zoom_readout_is_exact (script : list (Env.t * Action)) :
  let st := session script initialState in
  zoomInRange (zoom st) /\ In (roundedZoom st) percentGrid /\
  roundedZoom st = (zoom st * 100)%float.
Proof.
  destruct (sessionInv_reachable script) as (_ & _ & _ & _ & Hg).
  simpl; unfold roundedZoom.
  revert Hg; generalize (zoom (session script initialState)) as z.
  unfold zoomGrid; simpl; intros z H.
  repeat (destruct H as [<-|H];
          [split; [split; reflexivity | split; [vm_compute; tauto | reflexivity]]|]).
  destruct H.
Qed.

(** ** An edit and the other edits *)

(** What the overlay holds for any other page or fragment is what it
    held before the edit. *)
Lemma updateText_other st i s q j :
  sessionInv st -> q <> currentPage st \/ j <> i ->
  overlayLookup (updateText i s st) q j = overlayLookup st q j.
Proof.
  intros (Hwf & _ & _ & Hd & _) Hother.
  destruct (updateText_reads st i s Hwf)
    as (r & Hcase & _ & _ & Hn & Hr & Hr' & _).
  pose proof (wf_lookup_overlay st Hwf) as Hm.
  pose proof Hwf as [_ Hclosed].
  destruct (Hclosed _ _ Hm) as [_ Hlive].
  unfold overlayLookup, Heap.lookup.
  change (Heap.derefOverlay (heap (updateText i s st))
            (editedTexts (updateText i s st)))
    with (overlayOf (updateText i s st)).
  change (Heap.derefOverlay (heap st) (editedTexts st)) with (overlayOf st).
  rewrite Hn.
  destruct (Z.eq_dec q (currentPage st)) as [->|Hq].
  - destruct Hother as [Hq|Hj]; [congruence|].
    rewrite get_set_eq, Hr, get_set_ne by congruence.
    destruct Hcase as [->|[-> ->]]; [reflexivity|].
    unfold Heap.derefPage.
    now rewrite (lookup_ge_None_2 (Heap.pageMaps (heap st))) by reflexivity.
  - rewrite get_set_ne by congruence.
    destruct (JsMap.get q (overlayOf st)) as [r'|] eqn:Hq'; [|reflexivity].
    rewrite Hr'; [reflexivity|].
    intros ->.
    destruct Hcase as [Hp|[_ ->]].
    + apply Hq.
      exact (NoDup_map_snd_inj _ _ _ _ Hd (get_in _ _ _ Hq') (get_in _ _ _ Hp)).
    + specialize (Hlive _ _ (get_in _ _ _ Hq')).
      unfold Heap.livePage in Hlive; lia.
Qed.

(** X7.  In every state a session reaches, recording an edit of fragment
    [i] on the current page leaves what the overlay holds for every other
    fragment of the page and for every fragment of every other page as it
    was: an edit never disturbs another edit. *)
Theorem edit_leaves_other_edits_alone (script : list (Env.t * Action))
    (i : nat) (s : string) (q : Z) (j : nat) :
  let st := session script initialState in
  q <> currentPage st \/ j <> i ->
  overlayLookup (updateText i s st) q j = overlayLookup st q j.
Proof. intros st; apply updateText_other, sessionInv_reachable. Qed.

Lemma edit_leaves_other_edits_alone_witness :
  overlayLookup (updateText 1 "B" (session exStaleScript initialState)) 1 0
    = overlayLookup (session exStaleScript initialState) 1 0 /\
  overlayLookup (session exStaleScript initialState) 1 0 = Some "ok".
Proof.
  split; [|vm_compute; reflexivity].
  apply (edit_leaves_other_edits_alone exStaleScript 1 "B" 1 0).
  right; discriminate.
Defined.

Lemma keepsDocument_lookup env a st p i :
  sessionInv st -> keepsDocument a = true ->
  overlayLookup st p i <> None ->
  overlayLookup (fst (step env a st)) p i <> None.
Proof.
  intros Hinv Ha Hrec.
  assert (Hsame : forall st',
            editedTexts st' = editedTexts st -> heap st' = heap st ->
            overlayLookup st' p i <> None).
  { intros st' He Hh; unfold overlayLookup; now rewrite He, Hh. }
  destruct a; try discriminate Ha;
    try (apply Hsame; now apply navigation_frame).
  - cbn [step fst].
    destruct (Z.eq_dec p (currentPage st)) as [->|Hp].
    + destruct (Nat.eq_dec i itemIndex) as [->|Hi].
      * unfold overlayLookup; rewrite updateText_lookup by apply Hinv.
        discriminate.
      * now rewrite updateText_other by auto.
    + now rewrite updateText_other by auto.
  - destruct (downloadPdf_sameView env st) as (_ & _ & _ & He & Hh & _).
    now apply Hsame.
Qed.

(** X8.  Once an edit is recorded for a fragment, no action but a file
    selection takes it away: along any run of edits, renders, page
    changes, zoom steps and exports, the overlay keeps an entry for that
    page and fragment. *)
Theorem recorded_edits_persist (before script : list (Env.t * Action))
    (p : Z) (i : nat) :
  let st := session before initialState in
  Forall (fun ea => keepsDocument (snd ea) = true) script ->
  overlayLookup st p i <> None ->
  overlayLookup (session script st) p i <> None.
Proof.
  intros st Hall; pose proof (sessionInv_reachable before) as Hinv.
  fold st in Hinv; clearbody st; revert st Hinv.
  induction script as [|[env a] rest IH]; intros st Hinv Hrec; simpl; [exact Hrec|].
  inversion Hall as [|? ? Ha Hrest]; subst; simpl in Ha.
  apply IH; [exact Hrest | now apply sessionInv_step |].
  now apply keepsDocument_lookup.
Qed.

Lemma recorded_edits_persist_witness :
  overlayLookup
    (session [(exEnv exTwo, GoToNextPage); (exEnv exTwo, UpdateText 0 "D");
              (exEnv exTwo, ZoomOut); (exEnv exTwo, DownloadPdf)]
       (session exStaleScript initialState))
    1 0 <> None.
Proof.
  apply (recorded_edits_persist exStaleScript
           [(exEnv exTwo, GoToNextPage); (exEnv exTwo, UpdateText 0 "D");
            (exEnv exTwo, ZoomOut); (exEnv exTwo, DownloadPdf)] 1 0).
  - repeat constructor.
  - vm_compute; discriminate.
Defined.

(** ** Rendering and page changes *)

Lemma renderPage_moves env pageNum st :
  pdfDocProxy st <> None -> 1 <= pageNum <= totalPages st ->
  Env.canvasRef env <> None ->
  currentPage (fst (renderPage env pageNum st)) = pageNum.
Proof.
  intros Hproxy Hrange Hcanvas; render_cases env pageNum st;
    try reflexivity; try congruence.
  apply orb_true_iff in Heqb as [H|H]; apply Z.ltb_lt in H; lia.
Qed.

(** X9.  Rendering the same page again, with the libraries answering as
    before, changes nothing: the second call leaves the state of the
    first and logs what the first logged. *)
Theorem renderPage_twice (env : Env.t) (pageNum : Z) (st : AppState) :
  renderPage env pageNum (fst (renderPage env pageNum st))
    = renderPage env pageNum st.
Proof.
  unfold renderPage, renderBody.
  destruct (pdfDocProxy st) as [proxy|] eqn:Hp; simpl; [|now rewrite Hp].
  destruct ((pageNum <? 1) || (totalPages st <? pageNum))%bool eqn:Hg; simpl;
    [now rewrite Hp, Hg|].
  destruct (Env.canvasRef env) as [canvas|] eqn:Hc; simpl;
    [|now rewrite Hp, Hg].
  destruct (PdfDocProxy.getPage proxy pageNum) as [page|] eqn:Hpage; simpl;
    [|now rewrite Hp, Hg, Hpage].
  destruct (PdfPage.render page) eqn:Hrender; simpl;
    [|now rewrite Hp, Hg, Hpage, Hrender].
  destruct (PdfPage.getTextContent page) eqn:Hitems; simpl;
    now rewrite Hp, Hg, Hpage, Hrender, Hitems.
Qed.

(** X10.  When a render ends in its failure notice, whichever call failed,
    the page counter has already moved to the requested page while the
    fragment list is still the one of the page shown before; the busy flag
    is down and the document is the same. *)
Theorem renderPage_failure_leaves_stale_fragments (env : Env.t) (pageNum : Z)
    (st : AppState) :
  In (Alert renderFailedNotice) (snd (renderPage env pageNum st)) ->
  let st' := fst (renderPage env pageNum st) in
  currentPage st' = pageNum /\ textItems st' = textItems st /\
  isLoading st' = false /\ pdfDocProxy st' = pdfDocProxy st /\
  1 <= pageNum <= totalPages st.
Proof.
  assert (Hrange : forall b, ((pageNum <? 1) || (totalPages st <? pageNum))%bool = b ->
                             b = false -> 1 <= pageNum <= totalPages st).
  { intros b Hb ->; apply orb_false_iff in Hb as [H1 H2].
    apply Z.ltb_ge in H1; apply Z.ltb_ge in H2; lia. }
  render_cases env pageNum st; intros Hin;
    repeat (destruct Hin as [Hin|Hin]; [try discriminate Hin|]);
    try contradiction; repeat split; eauto; eapply Hrange; eauto.
Qed.

Lemma renderPage_failure_leaves_stale_fragments_witness :
  let st := set_pdfDocProxy (Some exBrokenProxy) (exLoaded exTwo) in
  let st' := fst (renderPage (exEnv exTwo) 2 st) in
  currentPage st = 1 /\ currentPage st' = 2 /\ textItems st' = textItems st /\
  isLoading st' = false /\ pdfDocProxy st' = pdfDocProxy st /\
  1 <= 2 <= totalPages st.
Proof.
  split; [reflexivity|].
  apply (renderPage_failure_leaves_stale_fragments (exEnv exTwo) 2
           (set_pdfDocProxy (Some exBrokenProxy) (exLoaded exTwo))).
  vm_compute; auto.
Defined.

(** X11.  With a document loaded and the canvas there, going to the next
    page and back, or to the previous page and forth, ends on the page it
    started from, whether or not the renders in between succeed. *)
Theorem next_then_previous_returns (env1 env2 : Env.t) (st : AppState) :
  pdfDocProxy st <> None ->
  Env.canvasRef env1 <> None -> Env.canvasRef env2 <> None ->
  1 <= currentPage st <= totalPages st ->
  (currentPage st < totalPages st ->
   currentPage (fst (goToPrevPage env2 (fst (goToNextPage env1 st))))
     = currentPage st) /\
  (1 < currentPage st ->
   currentPage (fst (goToNextPage env2 (fst (goToPrevPage env1 st))))
     = currentPage st).
Proof.
  intros Hproxy Hc1 Hc2 Hrange.
  assert (Hstep : forall n,
            1 <= n <= totalPages st ->
            let st1 := fst (renderPage env1 n st) in
            currentPage st1 = n /\ totalPages st1 = totalPages st /\
            pdfDocProxy st1 <> None).
  { intros n Hn.
    pose proof (renderPage_frame env1 n st) as (_ & _ & _ & Ht & Hp & _).
    simpl; rewrite Ht, Hp; split; [|auto].
    apply renderPage_moves; auto. }
  split; intros Hlt.
  - unfold goToNextPage; rewrite (proj2 (Z.ltb_lt _ _) Hlt).
    destruct (Hstep (currentPage st + 1)) as (Hc & Ht & Hp); [lia|].
    unfold goToPrevPage; rewrite Hc.
    rewrite (proj2 (Z.ltb_lt 1 (currentPage st + 1))) by lia.
    rewrite renderPage_moves; auto; lia.
  - unfold goToPrevPage; rewrite (proj2 (Z.ltb_lt _ _) Hlt).
    destruct (Hstep (currentPage st - 1)) as (Hc & Ht & Hp); [lia|].
    unfold goToNextPage; rewrite Hc, Ht.
    rewrite (proj2 (Z.ltb_lt (currentPage st - 1) (totalPages st))) by lia.
    rewrite renderPage_moves; auto; lia.
Qed.

Lemma next_then_previous_returns_witness :
  let st := exLoaded exTwo in
  currentPage (fst (goToNextPage (exEnv exTwo) st)) = 2 /\
  currentPage (fst (goToPrevPage (exEnv exTwo) (fst (goToNextPage (exEnv exTwo) st))))
    = currentPage st.
Proof.
  split; [reflexivity|].
  destruct (next_then_previous_returns (exEnv exTwo) (exEnv exTwo) (exLoaded exTwo))
    as [Hback _].
  - discriminate.
  - discriminate.
  - discriminate.
  - vm_compute; split; discriminate.
  - apply Hback; reflexivity.
Defined.

(** ** Export: one outcome per attempt *)

Lemma exportEdits_quiet pdfDoc page pageIndex items edits e :
  In e (fst (exportEdits pdfDoc page pageIndex items edits)) ->
  isAlert e = false.
Proof.
  induction edits as [|[i s] rest IH]; simpl; [intros []|].
  destruct (Nat.leb_spec (length items) i) as [Hge|Hlt]; [exact IH|].
  destruct (index_in_range items i Hlt) as [item Hitem]; rewrite Hitem.
  intros Hin; apply bind_log_in in Hin as [Hin|(u & Hu & Hin)]; [|now apply IH].
  destruct (drawEdit_log pdfDoc page pageIndex item s)
    as (rect & text & _ & _ & Hlog & _).
  now destruct (Hlog e Hin) as [-> | [-> | ->]].
Qed.

Lemma exportPages_quiet proxy h pdfDoc pages entries e :
  In e (fst (exportPages proxy h pdfDoc pages entries)) ->
  isAlert e = false.
Proof.
  induction entries as [|[pageNum r] rest IH]; [intros []|].
  destruct (pageSkipped pages pageNum) eqn:Hskip.
  { cbn [exportPages]; rewrite Hskip; exact IH. }
  intros Hin.
  apply (exportPages_cons_log _ _ _ _ _ _ _ _ Hskip) in Hin
    as [-> | [-> | [-> | [(p & page & items & _ & _ & _ & Hin) | Hin]]]];
    try reflexivity; [|now apply IH].
  exact (exportEdits_quiet _ _ _ _ _ _ Hin).
Qed.

Lemma filter_none {A : Type} (f : A -> bool) (l : list A) :
  (forall x, In x l -> f x = false) -> List.filter f l = [].
Proof.
  induction l as [|x l IH]; simpl; intros H; [reflexivity|].
  rewrite (H x) by now left. apply IH; auto.
Qed.

(** The [try] block logs no alert; it logs one download, as its last
    event, when it runs to the end, and none when a call fails. *)
Lemma exportBody_counts lib (buf : ArrayBuffer) st :
  List.filter isAlert (fst (exportBody lib buf st)) = [] /\
  length (List.filter is_download (fst (exportBody lib buf st))) =
    match snd (exportBody lib buf st) with
    | Ret _ => 1%nat
    | Exn => 0%nat
    end.
Proof.
  unfold exportBody, call, emit, JsMap.entries.
  destruct (PDFLib.load lib buf) as [pdfDoc|]; simpl; [|auto].
  destruct (PDFDocument.embedFont pdfDoc Helvetica); simpl; [|auto].
  pose proof (exportPages_no_download (pdfDocProxy st) (heap st) pdfDoc
                (PDFDocument.getPages pdfDoc) (overlayOf st)) as Hnd.
  pose proof (exportPages_quiet (pdfDocProxy st) (heap st) pdfDoc
                (PDFDocument.getPages pdfDoc) (overlayOf st)) as Hq.
  destruct (exportPages _ _ pdfDoc _ _) as [t [[]|]]; simpl in *.
  - destruct (PDFDocument.save pdfDoc) as [bytes|]; simpl;
      rewrite !List.filter_app, (filter_none isAlert t Hq),
        (filter_none is_download t Hnd); auto.
  - rewrite (filter_none isAlert t Hq), (filter_none is_download t Hnd); auto.
Qed.

(** X12.  Every export attempt, whatever the state and whatever the
    libraries answer, ends in exactly one of two ways: one download is
    offered and no alert is raised, or one alert is raised and nothing is
    offered. *)
Theorem export_offers_a_download_or_alerts (env : Env.t) (st : AppState) :
  let log := snd (downloadPdf env st) in
  (length (List.filter is_download log) = 1%nat /\
   length (List.filter isAlert log) = 0%nat) \/
  (length (List.filter is_download log) = 0%nat /\
   length (List.filter isAlert log) = 1%nat).
Proof.
  unfold downloadPdf.
  destruct (pdfFileBuffer st) as [buf|]; [|right; auto].
  destruct (Env.PDFLib env) as [lib|]; [|right; auto].
  destruct (_ =? _)%nat; [right; auto|].
  destruct (exportBody_counts lib (derefBuffer st buf) (set_isLoading true st))
    as [Ha Hd].
  destruct (exportBody lib _ _) as [t [[]|]]; simpl in *;
    rewrite !List.filter_app, Ha; simpl; rewrite !length_app, Hd; simpl;
    [left | right]; auto.
Qed.

(** X13.  An export consumes nothing: it leaves the document, the page,
    the zoom, every recorded edit, the buffer reference and what the
    buffers hold as they were, and exporting again with the libraries
    answering as before logs exactly what the first export logged. *)
Theorem export_can_be_repeated (env : Env.t) (st : AppState) :
  sameView st (fst (downloadPdf env st)) /\
  pdfFileBuffer (fst (downloadPdf env st)) = pdfFileBuffer st /\
  buffers (fst (downloadPdf env st)) = buffers st /\
  snd (downloadPdf env (fst (downloadPdf env st))) = snd (downloadPdf env st).
Proof.
  split; [apply downloadPdf_sameView|].
  destruct (downloadPdf_state env st) as [-> | ->];
    (split; [reflexivity|]); (split; [reflexivity|]); try reflexivity.
  unfold downloadPdf.
  change (pdfFileBuffer (set_isLoading false st)) with (pdfFileBuffer st).
  change (overlayOf (set_isLoading false st)) with (overlayOf st).
  destruct (pdfFileBuffer st) as [buf|]; [|reflexivity].
  destruct (Env.PDFLib env) as [lib|]; [|reflexivity].
  destruct (_ =? _)%nat; [reflexivity|].
  change (exportBody lib (derefBuffer (set_isLoading false st) buf)
            (set_isLoading true (set_isLoading false st)))
    with (exportBody lib (derefBuffer st buf) (set_isLoading true st)).
  now destruct (exportBody lib _ _) as [t r].
Qed.

(** X16.  After any edit, in any state a session reaches, the overlay is
    not empty, so an export does not answer "no changes", also when the
    text typed is the text the fragment had. *)
Theorem edit_enables_export (script : list (Env.t * Action)) (i : nat)
    (s : string) (env : Env.t) :
  let st := updateText i s (session script initialState) in
  JsMap.size (overlayOf st) <> 0%nat /\
  ~ In (Alert noChangesNotice) (snd (downloadPdf env st)).
Proof.
  intros st.
  destruct (updateText_overlayOf (session script initialState) i s
              (wf_reachable script)) as (r & Ho & _).
  fold st in Ho.
  assert (Hsize : JsMap.size (overlayOf st) <> 0%nat).
  { rewrite Ho; unfold JsMap.size.
    pose proof (get_set_eq (currentPage (session script initialState)) r
                  (overlayOf (session script initialState))) as Hget.
    destruct (JsMap.set _ _ _); [discriminate Hget | discriminate]. }
  split; [exact Hsize|].
  unfold downloadPdf.
  destruct (pdfFileBuffer st) as [buf|]; [|intros [H|[]]; discriminate H].
  destruct (Env.PDFLib env) as [lib|]; [|intros [H|[]]; discriminate H].
  apply Nat.eqb_neq in Hsize; rewrite Hsize.
  destruct (exportBody_counts lib (derefBuffer st buf) (set_isLoading true st))
    as [Ha _].
  destruct (exportBody lib _ _) as [t res]; simpl in *.
  intros Hin; apply in_app_or in Hin as [Hin|Hin].
  - assert (Hf : In (Alert noChangesNotice) (List.filter isAlert t))
      by (apply filter_In; auto).
    rewrite Ha in Hf; destruct Hf.
  - destruct res; [destruct Hin|].
    destruct Hin as [H|[H|[]]]; discriminate H.
Qed.

(** ** Failed loads *)

(** X14.  When the selected PDF file is read but cannot be parsed, the
    chain drops the byte buffer and lowers the busy flag, and leaves the
    parsed handle, page, page count, zoom, fragments and edits of the
    document shown before as they were; a later export then answers "no
    PDF" although that document is still on display. *)
Theorem unparsable_file_drops_buffer_only (file : File.t) (others : list File.t)
    (env : Env.t) (st : AppState) (fileBuffer : Bytes) :
  File.type file = pdfMime ->
  Env.loadPdfLibraries env = Ret tt ->
  File.arrayBuffer file = Ret fileBuffer ->
  Env.getDocument env fileBuffer = Exn ->
  let st' := fst (onFileSelected (Some (file :: others)) env st) in
  pdfFileBuffer st' = None /\ isLoading st' = false /\ sameView st st' /\
  snd (onFileSelected (Some (file :: others)) env st) =
    [LoadLibraries; ReadFile; ResetFileInput; PdfJs_getDocument fileBuffer;
     ConsoleError "Error loading PDF:"; Alert "Failed to load PDF file."] /\
  (forall env', snd (downloadPdf env' st') = [Alert noPdfNotice]).
Proof.
  intros Hty Hlib Hbuf Hdoc; unfold onFileSelected, loadPdf.
  rewrite Hty, Hlib, Hbuf; simpl.
  rewrite (derefBuffer_new (set_isLoading true st)), Hdoc; simpl.
  repeat split.
Qed.

Lemma unparsable_file_drops_buffer_only_witness :
  let env := Env.mk (Some exCanvas) (Ret tt) (fun _ => Exn) Attached (Some (exLib 2)) in
  let st := session exStaleScript initialState in
  let st' := fst (onFileSelected (Some [exFile]) env st) in
  pdfFileBuffer st = Some 0%nat /\
  pdfFileBuffer st' = None /\ isLoading st' = false /\ sameView st st' /\
  snd (onFileSelected (Some [exFile]) env st) =
    [LoadLibraries; ReadFile; ResetFileInput; PdfJs_getDocument [];
     ConsoleError "Error loading PDF:"; Alert "Failed to load PDF file."] /\
  (forall env', snd (downloadPdf env' st') = [Alert noPdfNotice]).
Proof.
  split; [reflexivity|].
  apply (unparsable_file_drops_buffer_only exFile []
           (Env.mk (Some exCanvas) (Ret tt) (fun _ => Exn) Attached (Some (exLib 2)))
           (session exStaleScript initialState) []); reflexivity.
Defined.

(** X15.  When the libraries fail to load, or the selected PDF file cannot
    be read, the chain ends with everything but the busy flag as it was,
    buffer reference and buffers included.  After the calls it made (the
    library load, and the read if it got that far) it logs the error,
    raises one alert, the one about the libraries in both cases, and
    resets the file input, in this order and nothing else; it never
    reaches the rasterizer. *)
Theorem failed_library_load_keeps_session (file : File.t) (others : list File.t)
    (env : Env.t) (st : AppState) :
  File.type file = pdfMime ->
  Env.loadPdfLibraries env = Exn \/ File.arrayBuffer file = Exn ->
  let log := snd (onFileSelected (Some (file :: others)) env st) in
  fst (onFileSelected (Some (file :: others)) env st) = set_isLoading false st /\
  log =
    (match Env.loadPdfLibraries env with
     | Ret _ => [LoadLibraries; ReadFile]
     | Exn => [LoadLibraries]
     end) ++
    [ConsoleError "Error during file processing:";
     Alert "Failed to load required PDF libraries. Please check your internet connection and try again.";
     ResetFileInput] /\
  List.filter isAlert log =
    [Alert "Failed to load required PDF libraries. Please check your internet connection and try again."] /\
  Forall (fun e => is_rasterizer_call e = false) log.
Proof.
  intros Hty Hfail; unfold onFileSelected; rewrite Hty; simpl.
  destruct (Env.loadPdfLibraries env) as [[]|];
    [destruct Hfail as [Hfail|Hfail]; [discriminate Hfail | rewrite Hfail]|];
    simpl; repeat split; repeat constructor.
Qed.

Lemma failed_library_load_keeps_session_witness :
  let file := File.mk pdfMime Exn in
  let st := session exStaleScript initialState in
  let log := snd (onFileSelected (Some [file]) (exEnv exTwo) st) in
  fst (onFileSelected (Some [file]) (exEnv exTwo) st) = set_isLoading false st /\
  log =
    [LoadLibraries; ReadFile;
     ConsoleError "Error during file processing:";
     Alert "Failed to load required PDF libraries. Please check your internet connection and try again.";
     ResetFileInput] /\
  List.filter isAlert log =
    [Alert "Failed to load required PDF libraries. Please check your internet connection and try again."] /\
  Forall (fun e => is_rasterizer_call e = false) log.
Proof.
  apply (failed_library_load_keeps_session (File.mk pdfMime Exn) [] (exEnv exTwo)
           (session exStaleScript initialState)).
  - reflexivity.
  - right; reflexivity.
Defined.

(** ** Library Loader *)

Lemma existsb_eqb_In (url : string) (doc : list string) :
  existsb (String.eqb url) doc = true <-> In url doc.
Proof.
  rewrite existsb_exists; split.
  - intros (x & Hin & Heq); apply String.eqb_eq in Heq; now subst.
  - intros Hin; exists url; split; [exact Hin | apply String.eqb_refl].
Qed.

Lemma loadScript_spec url doc :
  (In url doc /\ Loader.loadScript url doc = (doc, [])) \/
  (~ In url doc /\ Loader.loadScript url doc = (doc ++ [url], [url])).
Proof.
  unfold Loader.loadScript.
  destruct (existsb (String.eqb url) doc) eqn:Hex.
  - left; split; [now apply existsb_eqb_In | reflexivity].
  - right; split; [|reflexivity].
    intros Hin; apply existsb_eqb_In in Hin; congruence.
Qed.

(** One step appends only library scripts that were not in the document,
    none of them twice, and what was or is now appended is in the
    document afterwards. *)
Lemma loader_step_appends a st :
  let st1 := fst (Loader.step a st) in
  let t1 := snd (Loader.step a st) in
  List.NoDup t1 /\
  (forall url, In url t1 ->
     (url = Loader.pdfJsUrl \/ url = Loader.pdfLibUrl) /\
     ~ In url (Loader.scripts st)) /\
  (forall url, In url (Loader.scripts st) \/ In url t1 ->
     In url (Loader.scripts st1)).
Proof.
  destruct a as [|loaded ran]; simpl.
  - unfold Loader.loadPdfLibraries.
    destruct (Loader.scriptsLoadedPromise st); simpl;
      [split; [constructor|]; split; [intros ? []|intros ? [?|[]]; auto]|].
    destruct (loadScript_spec Loader.pdfJsUrl (Loader.scripts st))
      as [[HA ->]|[HA ->]];
    match goal with
    | |- context [Loader.loadScript Loader.pdfLibUrl ?d] =>
        destruct (loadScript_spec Loader.pdfLibUrl d) as [[HB ->]|[HB ->]]
    end; simpl.
    + split; [constructor|]. split; [intros ? []|intros ? [?|[]]; auto].
    + split; [repeat constructor; simpl; tauto|].
      split; [intros url [<-|[]]; auto|].
      intros url [Hin|[<-|[]]]; apply in_or_app; simpl; auto.
    + split; [repeat constructor; simpl; tauto|].
      split; [intros url [<-|[]]; auto|].
      intros url [Hin|[<-|[]]]; apply in_or_app; simpl; auto.
    + split.
      { constructor; [simpl; intros [H|[]]; discriminate H|].
        repeat constructor; simpl; tauto. }
      split.
      { intros url [<-|[<-|[]]]; split; auto.
        intros Hin; apply HB, in_or_app; now left. }
      intros url [Hin|[<-|[<-|[]]]]; apply in_or_app; simpl; auto;
        left; apply in_or_app; simpl; auto.
  - unfold Loader.settle.
    split; [constructor|]. split; [intros ? []|].
    intros url [Hin|[]].
    destruct (Loader.scriptsLoadedPromise st) as [[ws|]|]; simpl; auto.
    destruct (forallb loaded ws); simpl; auto.
Qed.

Lemma loader_run_appends actions : forall st,
  List.NoDup (snd (Loader.run actions st)) /\
  (forall url, In url (snd (Loader.run actions st)) ->
     (url = Loader.pdfJsUrl \/ url = Loader.pdfLibUrl) /\
     ~ In url (Loader.scripts st)) /\
  (forall url, In url (Loader.scripts st) ->
     In url (Loader.scripts (fst (Loader.run actions st)))).
Proof.
  induction actions as [|a rest IH]; intros st; simpl.
  - split; [constructor|]. split; [intros ? []|auto].
  - destruct (loader_step_appends a st) as (Hnd1 & Hnew1 & Hin1).
    destruct (Loader.step a st) as [st1 t1]; simpl in *.
    destruct (IH st1) as (Hnd2 & Hnew2 & Hin2).
    destruct (Loader.run rest st1) as [st2 t2]; simpl in *.
    split; [|split].
    + clear Hin2 IH. induction t1 as [|u t1 IHt]; simpl; [exact Hnd2|].
      apply List.NoDup_cons_iff in Hnd1 as [Hu Hnd1].
      apply List.NoDup_cons_iff; split.
      * intros Hin; apply in_app_or in Hin as [Hin|Hin]; [tauto|].
        apply (Hnew2 u Hin), Hin1; right; now left.
      * apply IHt; [exact Hnd1 | intros; apply Hnew1; now right |].
        intros url [H|H]; apply Hin1; [now left | right; now right].
    + intros url Hin; apply in_app_or in Hin as [Hin|Hin]; [now apply Hnew1|].
      destruct (Hnew2 url Hin) as [Hlib Hnot]; split; [exact Hlib|].
      intros Hdoc; apply Hnot, Hin1; now left.
    + intros url Hin; apply Hin2, Hin1; now left.
Qed.

(** X17.  Over any run of calls and settlements, from any document, the
    loader appends no script element but those of the two libraries,
    appends none whose [src] the document already had, and appends none
    twice: each library is fetched at most once, failed attempts
    included. *)
Theorem loader_fetches_each_library_once (actions : list Loader.Action)
    (st : Loader.State) :
  List.NoDup (snd (Loader.run actions st)) /\
  (forall url, In url (snd (Loader.run actions st)) ->
     (url = Loader.pdfJsUrl \/ url = Loader.pdfLibUrl) /\
     ~ In url (Loader.scripts st)).
Proof. destruct (loader_run_appends actions st) as (H1 & H2 & _); auto. Qed.

Lemma loadPdfLibraries_fresh st :
  Loader.scriptsLoadedPromise st = None ->
  let st1 := fst (Loader.loadPdfLibraries st) in
  In Loader.pdfJsUrl (Loader.scripts st1) /\
  In Loader.pdfLibUrl (Loader.scripts st1) /\
  exists ws, Loader.scriptsLoadedPromise st1 = Some (Loader.Pending ws).
Proof.
  intros Hnone; unfold Loader.loadPdfLibraries; rewrite Hnone.
  destruct (loadScript_spec Loader.pdfJsUrl (Loader.scripts st))
    as [[HA ->]|[HA ->]];
  match goal with
  | |- context [Loader.loadScript Loader.pdfLibUrl ?d] =>
      destruct (loadScript_spec Loader.pdfLibUrl d) as [[HB ->]|[HB ->]]
  end; simpl; (split; [|split; [|eauto]]);
    rewrite ?in_app_iff in *; simpl in *; tauto.
Qed.

(** X18.  After a first attempt has failed, the promise is cleared, but a
    new attempt finds the script elements of the failed one still in the
    document: it appends nothing, so fetches nothing, and its promise
    resolves whatever the network answers. *)
Theorem loader_retry_fetches_nothing (st : Loader.State)
    (loaded loaded' : string -> bool) (ran : option string -> option string) :
  Loader.scriptsLoadedPromise st = None ->
  Loader.awaited loaded (fst (Loader.loadPdfLibraries st)) = Exn ->
  let failed := Loader.settle loaded ran (fst (Loader.loadPdfLibraries st)) in
  Loader.scriptsLoadedPromise failed = None /\
  snd (Loader.loadPdfLibraries failed) = [] /\
  Loader.awaited loaded' (fst (Loader.loadPdfLibraries failed)) = Ret tt.
Proof.
  intros Hnone Hfail.
  destruct (loadPdfLibraries_fresh st Hnone) as (HA & HB & ws & Hp).
  cbv zeta in *.
  remember (fst (Loader.loadPdfLibraries st)) as st1 eqn:E; clear E.
  unfold Loader.awaited in Hfail; rewrite Hp in Hfail.
  unfold Loader.settle; rewrite Hp; cbv zeta.
  destruct (forallb loaded ws); [discriminate Hfail|].
  apply existsb_eqb_In in HA, HB.
  unfold Loader.loadPdfLibraries, Loader.loadScript, Loader.awaited.
  cbn [Loader.scripts Loader.scriptsLoadedPromise Loader.pdfjsLib fst snd].
  rewrite HA.
  cbn [Loader.scripts Loader.scriptsLoadedPromise Loader.pdfjsLib fst snd].
  rewrite HB.
  repeat split.
Qed.

Lemma loader_retry_fetches_nothing_witness :
  let failed :=
    Loader.settle (fun _ => false) Loader.definesPdfjs
      (fst (Loader.loadPdfLibraries Loader.initial)) in
  snd (Loader.loadPdfLibraries Loader.initial)
    = [Loader.pdfJsUrl; Loader.pdfLibUrl] /\
  Loader.scriptsLoadedPromise failed = None /\
  snd (Loader.loadPdfLibraries failed) = [] /\
  Loader.awaited (fun _ => false) (fst (Loader.loadPdfLibraries failed)) = Ret tt.
Proof.
  split; [reflexivity|].
  apply (loader_retry_fetches_nothing Loader.initial (fun _ => false)
           (fun _ => false) Loader.definesPdfjs); reflexivity.
Defined.









(** ** The read path, the happy path of a load, and zoom *)

(** X21.  [getEditedText] throws in one situation only: the overlay has
    nothing for the current page and the fragment, and the index is at or
    past the end of the rendered page's fragment list.  On every fragment
    of the rendered page, and on every fragment with a recorded edit, it
    returns a text. *)
Theorem getEditedText_throws_exactly_when (st : AppState) (j : nat) :
  getEditedText j st = Exn <->
  overlayLookup st (currentPage st) j = None /\
  (length (textItems st) <= j)%nat.
Proof.
  unfold getEditedText, Js.index.
  destruct (overlayLookup st (currentPage st) j) as [s|].
  - split; [discriminate | intros [H _]; discriminate H].
  - destruct (textItems st !! j) as [item|] eqn:Hitem.
    + apply lookup_lt_Some in Hitem.
      split; [discriminate | intros [_ H]; lia].
    + apply lookup_ge_None_1 in Hitem; tauto.
Qed.

(** X22.  When a selected PDF file loads, parses and its first page
    renders, the chain ends with the busy flag down and without any alert;
    the fragment list is the one of page 1, every fragment of it reads as
    its original text, and the zoom factor is the one the session had
    before.  The signal holds a reference to the buffer made for the file,
    and that buffer holds what the rasterizer left of it, which need not
    be the bytes of the file. *)
Theorem successful_load_shows_page_one (file : File.t) (others : list File.t)
    (env : Env.t) (st : AppState) (fileBuffer : Bytes)
    (pdf : PdfDocProxy.t) (canvas : Canvas.t) (page : PdfPage.t)
    (items : list TextItem.t) :
  File.type file = pdfMime ->
  Env.loadPdfLibraries env = Ret tt ->
  File.arrayBuffer file = Ret fileBuffer ->
  Env.getDocument env fileBuffer = Ret pdf ->
  Env.canvasRef env = Some canvas ->
  1 <= PdfDocProxy.numPages pdf ->
  PdfDocProxy.getPage pdf 1 = Ret page ->
  PdfPage.render page = Ret tt ->
  PdfPage.getTextContent page = Ret items ->
  let st' := fst (onFileSelected (Some (file :: others)) env st) in
  isLoading st' = false /\
  pdfFileBuffer st' = Some (length (buffers st)) /\
  derefBuffer st' (length (buffers st)) = Env.getDocument_leaves env fileBuffer /\
  textItems st' = items /\ zoom st' = zoom st /\
  List.filter isAlert (snd (onFileSelected (Some (file :: others)) env st)) = [] /\
  (forall j item, Js.index items j = Some item ->
     getEditedText j st' = Ret (TextItem.str item)).
Proof.
  intros Hty Hlib Hbuf Hdoc Hcanvas Hpages Hpage Hrender Hitems.
  assert (Hguard : (PdfDocProxy.numPages pdf <? 1) = false)
    by (apply Z.ltb_ge; lia).
  unfold onFileSelected, loadPdf; rewrite Hty, Hlib, Hbuf; simpl.
  rewrite (derefBuffer_new (set_isLoading true st)), Hdoc; simpl.
  unfold renderPage, renderBody; simpl.
  rewrite Hguard, Hcanvas, Hpage; simpl; rewrite Hrender, Hitems; simpl.
  split; [reflexivity|]. split; [reflexivity|]. split.
  { unfold derefBuffer; simpl.
    rewrite list_lookup_insert_eq by (rewrite length_app; simpl; lia).
    reflexivity. }
  repeat split.
  intros j item Hj; unfold getEditedText, overlayLookup, Heap.lookup; simpl.
  unfold Heap.derefOverlay; simpl.
  rewrite lookup_app_r by reflexivity; rewrite Nat.sub_diag; simpl.
  now rewrite Hj.
Qed.

(** On a two-byte file, with a rasterizer that transfers the buffer to its
    worker: the load succeeds and the buffer the signal holds is left
    detached. *)
Lemma successful_load_shows_page_one_witness :
  let st := session exStaleScript initialState in
  let st' := fst (onFileSelected (Some [exFileBytes]) (exTransferEnv exOne) st) in
  getEditedText 0 st = Ret "ok" /\ derefBuffer st' 1%nat = Detached /\
  isLoading st' = false /\
  pdfFileBuffer st' = Some (length (buffers st)) /\
  derefBuffer st' (length (buffers st)) =
    Env.getDocument_leaves (exTransferEnv exOne) exBytes /\
  textItems st' = [exItem] /\ zoom st' = zoom st /\
  List.filter isAlert
    (snd (onFileSelected (Some [exFileBytes]) (exTransferEnv exOne) st)) = [] /\
  (forall j item, Js.index [exItem] j = Some item ->
     getEditedText j st' = Ret (TextItem.str item)).
Proof.
  split; [reflexivity|]. split; [reflexivity|].
  apply (successful_load_shows_page_one exFileBytes [] (exTransferEnv exOne)
           (session exStaleScript initialState) exBytes (exProxy exOne) exCanvas
           (exPage [exItem]) [exItem]);
    reflexivity || (vm_compute; discriminate).
Defined.

(** X23.  A zoom step re-renders the page that is shown: whatever the
    render does, the page number, the page count, the document, the
    buffer reference, what the buffers hold and every recorded edit are as
    before the step. *)
Theorem zoom_keeps_page_and_edits (env : Env.t) (a : Action) (st : AppState) :
  isZoomStep a = true ->
  let st' := fst (step env a st) in
  currentPage st' = currentPage st /\ totalPages st' = totalPages st /\
  pdfDocProxy st' = pdfDocProxy st /\ pdfFileBuffer st' = pdfFileBuffer st /\
  buffers st' = buffers st /\
  (forall p i, overlayLookup st' p i = overlayLookup st p i).
Proof.
  intros Ha.
  assert (Hgen : forall z,
            let st' := fst (renderPage env (currentPage st) (set_zoom z st)) in
            currentPage st' = currentPage st /\ totalPages st' = totalPages st /\
            pdfDocProxy st' = pdfDocProxy st /\
            pdfFileBuffer st' = pdfFileBuffer st /\
            buffers st' = buffers st /\
            (forall p i, overlayLookup st' p i = overlayLookup st p i)).
  { intros z.
    pose proof (renderPage_frame env (currentPage st) (set_zoom z st))
      as (_ & He & Hh & Ht & Hp & Hb).
    pose proof (renderPage_buffers env (currentPage st) (set_zoom z st)) as Hbs.
    destruct (renderPage_page env (currentPage st) (set_zoom z st)) as [Hs|[Hc _]].
    - simpl; rewrite Hs; repeat split.
    - simpl; rewrite Hc, Ht, Hp, Hb, Hbs; repeat split.
      intros p i; unfold overlayLookup; now rewrite He, Hh. }
  destruct a; try discriminate Ha; apply Hgen.
Qed.

Lemma zoom_keeps_page_and_edits_witness :
  let st := session exStaleScript initialState in
  let st' := fst (step (exEnv exTwo) ZoomIn st) in
  zoom st' = 1.5%float /\
  currentPage st' = currentPage st /\ totalPages st' = totalPages st /\
  pdfDocProxy st' = pdfDocProxy st /\ pdfFileBuffer st' = pdfFileBuffer st /\
  buffers st' = buffers st /\
  (forall p i, overlayLookup st' p i = overlayLookup st p i).
Proof.
  split; [reflexivity|].
  apply (zoom_keeps_page_and_edits (exEnv exTwo) ZoomIn
           (session exStaleScript initialState)); reflexivity.
Defined.

(** ** The buffer between file selections *)

(** Actions other than a file selection leave the buffer reference and
    what the buffers hold alone. *)
Lemma keepsDocument_buffers env a st :
  keepsDocument a = true ->
  pdfFileBuffer (fst (step env a st)) = pdfFileBuffer st /\
  buffers (fst (step env a st)) = buffers st.
Proof.
  assert (Hrender : forall pageNum st0,
            pdfFileBuffer st0 = pdfFileBuffer st -> buffers st0 = buffers st ->
            pdfFileBuffer (fst (renderPage env pageNum st0)) = pdfFileBuffer st /\
            buffers (fst (renderPage env pageNum st0)) = buffers st).
  { intros pageNum st0 Hp Hb.
    pose proof (renderPage_frame env pageNum st0) as (_ & _ & _ & _ & _ & Hf).
    now rewrite Hf, renderPage_buffers. }
  intros Ha; destruct a; try discriminate Ha; simpl;
    unfold goToPrevPage, goToNextPage, zoomIn, zoomOut.
  - now apply Hrender.
  - split; [apply updateText_frame | apply updateText_buffers].
  - destruct (_ <? _); [now apply Hrender | tauto].
  - destruct (_ <? _); [now apply Hrender | tauto].
  - now apply Hrender.
  - now apply Hrender.
  - destruct (downloadPdf_state env st) as [-> | ->]; tauto.
Qed.

Lemma keepsDocument_session_buffers script : forall st,
  Forall (fun ea => keepsDocument (snd ea) = true) script ->
  pdfFileBuffer (session script st) = pdfFileBuffer st /\
  buffers (session script st) = buffers st.
Proof.
  induction script as [|[env a] rest IH]; intros st Hall; simpl; [tauto|].
  inversion Hall as [|? ? Ha Hrest]; subst; simpl in Ha.
  destruct (IH (fst (step env a st)) Hrest) as [Hp Hb].
  destruct (keepsDocument_buffers env a st Ha) as [Hp' Hb'].
  split; congruence.
Qed.

(** X24.  Between file selections nothing writes the buffer the signal
    refers to: after any run of edits, renders, page changes, zoom steps
    and exports, an export that starts hands the mutation library what
    that buffer held at the beginning of the run, that is, what the
    rasterizer left of it when the file was loaded.  When the library
    cannot load that (a buffer the rasterizer has transferred is
    detached), the export makes no other call and ends with the
    save-failed alert. *)
Theorem export_is_handed_what_the_rasterizer_left
    (script : list (Env.t * Action)) (env : Env.t) (st : AppState) (b : ref)
    (lib : PDFLib.t) :
  Forall (fun ea => keepsDocument (snd ea) = true) script ->
  pdfFileBuffer st = Some b -> Env.PDFLib env = Some lib ->
  JsMap.size (overlayOf (session script st)) <> 0%nat ->
  (exists t,
     snd (downloadPdf env (session script st))
       = PdfLib_load (derefBuffer st b) :: t) /\
  (PDFLib.load lib (derefBuffer st b) = Exn ->
   snd (downloadPdf env (session script st)) =
     [PdfLib_load (derefBuffer st b);
      ConsoleError "Error saving PDF:"; Alert saveFailedNotice]).
Proof.
  intros Hall Hbuf Hlib Hsize.
  destruct (keepsDocument_session_buffers script st Hall) as [Hp Hb].
  rewrite Hbuf in Hp.
  rewrite (downloadPdf_log env _ b lib Hp Hlib Hsize).
  assert (Hd : derefBuffer (session script st) b = derefBuffer st b)
    by (unfold derefBuffer; now rewrite Hb).
  rewrite Hd; unfold exportBody, call.
  destruct (PDFLib.load lib (derefBuffer st b)) as [pdfDoc|]; cbn [bind].
  - split; [|discriminate].
    match goal with
    | |- context [let (t', r) := ?m in _] => destruct m as [t' r']
    end.
    simpl; eauto.
  - split; [eauto | reflexivity].
Qed.

(** A two-byte file is loaded by a rasterizer that transfers the buffer,
    its fragment is edited, and the export is handed a detached buffer. *)
Lemma export_is_handed_what_the_rasterizer_left_witness :
  let env := exTransferEnv exOne in
  let st := fst (onFileSelected (Some [exFileBytes]) env initialState) in
  let script := [(env, UpdateText 0 "World"); (env, ZoomIn)] in
  derefBuffer st 0%nat = Detached /\
  (exists t,
     snd (downloadPdf env (session script st))
       = PdfLib_load (derefBuffer st 0%nat) :: t) /\
  (PDFLib.load (exStrictLib 1) (derefBuffer st 0%nat) = Exn ->
   snd (downloadPdf env (session script st)) =
     [PdfLib_load (derefBuffer st 0%nat);
      ConsoleError "Error saving PDF:"; Alert saveFailedNotice]).
Proof.
  split; [reflexivity|].
  apply (export_is_handed_what_the_rasterizer_left
           [(exTransferEnv exOne, UpdateText 0 "World"); (exTransferEnv exOne, ZoomIn)]
           (exTransferEnv exOne)
           (fst (onFileSelected (Some [exFileBytes]) (exTransferEnv exOne)
                   initialState))
           0%nat (exStrictLib 1)).
  - repeat constructor.
  - reflexivity.
  - reflexivity.
  - vm_compute; discriminate.
Defined.
